(** * Order management core of the Fermi backtest engine

    A shallow embedding of [backtest/Order.py]: the value enumerations, the
    [Transaction] and [Order] records with the order life cycle and the fill
    ledger, the pending queue ([OrderQueue]) and the multi-index order book
    ([OrderBook]).

    Conventions of the embedding.
    - Python numbers ([amount], [price], [filled], fees) are exact rationals
      [Q]; Python's [==], [>=], [>] on them are [Qeq_bool], [Qle_bool] and
      [Qltb].  Rounding errors of binary floating point are not modelled.
    - A method that mutates [self] is a function from the state to an
      [outcome]: either [Return v s'] or [Raise e s'], where [s'] is the state
      the object is left in (an exception does not roll anything back).
    - [uuid.uuid4()] is an input: every constructor takes the identifier that
      the generator draws.
    - [str(datetime.fromtimestamp(timestamp / 1000.0))] depends on the time
      zone of the host; it is a parameter of the snapshot functions, and
      timestamps are taken to be in the range the platform can convert.
    - [sortedcontainers.SortedDict] is modelled by its two parts, the
      underlying dictionary and the list of keys kept sorted by the key
      function, with the sort key cached next to each entry as the library
      does.  Orders are stored by value; the indices and the claims about
      them read only the id, the symbol and the timestamp of an order, which
      never change after construction. *)

From Stdlib Require Import ZArith QArith Qround Qabs Lqa.
From stdpp Require Import gmap strings list fin_maps sorting.

Local Open Scope Z_scope.
Local Set Warnings "-clear-no-such-hyp".

(** ** Python exceptions and outcomes *)

Inductive exn := AssertionError | KeyError | ValueError.

Inductive result (A : Type) :=
| Ok (a : A)
| Err (e : exn).
Arguments Ok {A} a.
Arguments Err {A} e.

Inductive outcome (S A : Type) :=
| Return (a : A) (s : S)
| Raise (e : exn) (s : S).
Arguments Return {S A} a s.
Arguments Raise {S A} e s.

Definition final_state {S A} (o : outcome S A) : S :=
  match o with Return _ s => s | Raise _ s => s end.

Definition bind {S A B} (m : S -> outcome S A) (k : A -> S -> outcome S B)
  : S -> outcome S B :=
  fun s => match m s with
           | Return a s' => k a s'
           | Raise e s' => Raise e s'
           end.

Notation "m >>> k" := (bind m (fun _ => k))
  (at level 62, right associativity).

(** ** Numbers *)

Definition _PREC : nat := 8.

Definition Qltb (x y : Q) : bool := negb (Qle_bool y x).

(** [round(x)] of Python on an exact number: to the nearest integer, ties
    to the even one. *)
Definition round_half_even (x : Q) : Z :=
  let f := Qfloor x in
  match Qcompare (x - inject_Z f) (1 # 2) with
  | Lt => f
  | Gt => f + 1
  | Eq => if Z.even f then f else f + 1
  end.

(** [round(x, ndigits)] for [ndigits >= 0]. *)
Definition round (x : Q) (ndigits : nat) : Q :=
  (inject_Z (round_half_even (x * inject_Z (10 ^ Z.of_nat ndigits)))
     / inject_Z (10 ^ Z.of_nat ndigits))%Q.

(** ** Enumerations *)

Inductive OrderSide := Buy | Sell.
Inductive OrderType := Limit | Market | StopLimit.
Inductive OrderStatus := Submitted | Accepted | Open | Filled | Cancelled.

Definition OrderSide_value (s : OrderSide) : string :=
  match s with Buy => "buy" | Sell => "sell" end.

Definition OrderType_value (t : OrderType) : string :=
  match t with Limit => "limit" | Market => "market" | StopLimit => "stop_limit" end.

Definition OrderStatus_value (s : OrderStatus) : string :=
  match s with
  | Submitted => "submitted" | Accepted => "accepted" | Open => "open"
  | Filled => "filled" | Cancelled => "cancelled"
  end.

Definition OrderType_eqb (a b : OrderType) : bool :=
  match a, b with
  | Limit, Limit | Market, Market | StopLimit, StopLimit => true
  | _, _ => false
  end.

Definition OrderSide_eqb (a b : OrderSide) : bool :=
  match a, b with
  | Buy, Buy | Sell, Sell => true
  | _, _ => false
  end.

(** ** Transaction *)

Record Transaction := mkTransaction {
  _timestamp : Z;
  _side : OrderSide;
  _quote_name : string;
  _base_name : string;
  _symbol : string;
  _amount : Q;
  _price : Q;
  _id : Z
}.

(** [Transaction.__init__]; [uuid] is the value of [_generate_unique_id]. *)
Definition Transaction_init (uuid : Z) (quote_name base_name : string)
    (price amount : Q) (side : OrderSide) (timestamp : Z) : Transaction :=
  {| _timestamp := timestamp;
     _side := side;
     _quote_name := quote_name;
     _base_name := base_name;
     _symbol := quote_name +:+ "/" +:+ base_name;
     _amount := amount;
     _price := price;
     _id := uuid |}.

(** ** Order *)

Record Order := mkOrder {
  Order_super :> Transaction;
  _status : OrderStatus;
  _type : OrderType;
  _stop_price : Q;
  _filled : Q;
  _transactions : list Transaction;
  _fee : list (string * Q)
}.

Definition set_status (s : OrderStatus) (o : Order) : Order :=
  mkOrder (Order_super o) s (_type o) (_stop_price o) (_filled o)
          (_transactions o) (_fee o).

Definition set_filled (f : Q) (o : Order) : Order :=
  mkOrder (Order_super o) (_status o) (_type o) (_stop_price o) f
          (_transactions o) (_fee o).

Definition set_transactions (l : list Transaction) (o : Order) : Order :=
  mkOrder (Order_super o) (_status o) (_type o) (_stop_price o) (_filled o)
          l (_fee o).

Definition set_fee (f : list (string * Q)) (o : Order) : Order :=
  mkOrder (Order_super o) (_status o) (_type o) (_stop_price o) (_filled o)
          (_transactions o) f.

(** [Order.__init__]. *)
Definition Order_init (uuid : Z) (timestamp : Z) (order_type : OrderType)
    (side : OrderSide) (quote_name base_name : string)
    (amount price stop_price : Q) : result Order :=
  if negb (Qltb 0 amount) then Err AssertionError
  else
    let price := if OrderType_eqb order_type Market then 0%Q else price in
    let stop_price :=
      if negb (OrderType_eqb order_type StopLimit) then 0%Q else stop_price in
    if negb (Qle_bool 0 price && Qle_bool 0 stop_price) then Err AssertionError
    else
      Ok {| Order_super :=
              Transaction_init uuid quote_name base_name price amount side timestamp;
            _status := Submitted;
            _type := order_type;
            _stop_price := stop_price;
            _filled := 0%Q;
            _transactions := [];
            _fee := [] |}.

Definition remaining (self : Order) : Q := (_amount self - _filled self)%Q.


(** Life cycle. *)
Definition open (self : Order) : outcome Order unit :=
  if negb (negb (OrderType_eqb (_type self) Market)) then Raise AssertionError self
  else Return tt (set_status Open self).

Definition accept (self : Order) : outcome Order unit :=
  if negb (OrderType_eqb (_type self) StopLimit) then Raise AssertionError self
  else Return tt (set_status Accepted self).

Definition cancel (self : Order) : outcome Order unit :=
  Return tt (set_status Cancelled self).

Definition generate_transaction (uuid : Z) (self : Order) (amount price : Q)
    (timestamp : Z) : Transaction :=
  Transaction_init uuid (_quote_name self) (_base_name self) price amount
                   (_side self) timestamp.

(** [Order.execute_transaction]: both branches on the side do the same. *)
Definition execute_transaction (self : Order) (transaction : Transaction)
  : outcome Order bool :=
  let self :=
    if OrderSide_eqb (_side transaction) Buy then
      set_transactions (_transactions self ++ [transaction])
        (set_filled (_filled self + _amount transaction)%Q self)
    else
      set_transactions (_transactions self ++ [transaction])
        (set_filled (_filled self + _amount transaction)%Q self) in
  if negb (Qle_bool 0 (_amount self - _filled self)) then Raise AssertionError self
  else if Qeq_bool (_amount self - _filled self) 0 then
    Return true (set_status Filled self)
  else Return false self.

(** [Order.pay_fee]; the fee dictionary keeps its keys in insertion order. *)
Fixpoint fee_add (asset : string) (amount : Q) (fee : list (string * Q))
  : list (string * Q) :=
  match fee with
  | [] => [(asset, amount)]
  | (a, x) :: fee' =>
      if String.eqb a asset then (a, (x + amount)%Q) :: fee'
      else (a, x) :: fee_add asset amount fee'
  end.

Definition pay_fee (self : Order) (asset : string) (amount : Q)
  : outcome Order unit :=
  if Qeq_bool amount 0 then Return tt self
  else Return tt (set_fee (fee_add asset amount (_fee self)) self).

(** ** Snapshots ([info])

    A snapshot is a Python dictionary with string keys, kept as the list of
    its items in the order of the dictionary display. *)

#[warnings="-register-all"]
Inductive value :=
| VInt (z : Z)
| VNum (q : Q)
| VStr (s : string)
| VList (l : list value)
| VDict (d : list (string * value)).

Definition snapshot := list (string * value).

(** An element of the list [get_orders] returns: an order id, or a snapshot
    when [id_only] is false. *)
Definition entry : Type := Z + snapshot.

Section Snapshots.
(** [str(datetime.fromtimestamp(timestamp / 1000.0))]: the rendering of a
    timestamp in the local time zone, taken as given. *)
Variable str_datetime : Z -> string.

Definition Transaction_info (self : Transaction) : snapshot :=
  [ ("datetime", VStr (str_datetime (_timestamp self)));
    ("timestamp", VInt (_timestamp self));
    ("price", VNum (round (_price self) _PREC));
    ("amount", VNum (round (_amount self) _PREC)) ].

Definition Order_info (self : Order) : snapshot :=
  [ ("id", VInt (_id self));
    ("datetime", VStr (str_datetime (_timestamp self)));
    ("timestamp", VInt (_timestamp self));
    ("status", VStr (OrderStatus_value (_status self)));
    ("symbol", VStr (_symbol self));
    ("type", VStr (OrderType_value (_type self)));
    ("side", VStr (OrderSide_value (_side self)));
    ("price", VNum (round (_price self) _PREC));
    ("stop_price", VNum (round (_stop_price self) _PREC));
    ("amount", VNum (round (_amount self) _PREC));
    ("filled", VNum (round (_filled self) _PREC));
    ("remaining", VNum (round (remaining self) _PREC));
    ("transaction",
      VList (map (fun tx => VDict (Transaction_info tx)) (_transactions self)));
    ("fee",
      VDict (map (fun af => (af.1, VNum (round af.2 _PREC))) (_fee self))) ].
End Snapshots.

(** ** Pending queue: [OrderQueue]

    [book] is an [OrderedDict]: the list of its items in insertion order. *)

Module OrderQueue.

Record t := mk { book : list (Z * Order) }.

Definition init : t := {| book := [] |}.

(** [OrderedDict.__setitem__]: a known key keeps its place. *)
Fixpoint setitem (k : Z) (v : Order) (d : list (Z * Order)) : list (Z * Order) :=
  match d with
  | [] => [(k, v)]
  | (k', v') :: d' =>
      if k' =? k then (k', v) :: d' else (k', v') :: setitem k v d'
  end.

Fixpoint getitem (k : Z) (d : list (Z * Order)) : option Order :=
  match d with
  | [] => None
  | (k', v') :: d' => if k' =? k then Some v' else getitem k d'
  end.

Definition get_order (self : t) (order_id : Z) : result Order :=
  match getitem order_id (book self) with
  | Some o => Ok o
  | None => Err KeyError
  end.

Definition len (self : t) : nat := length (book self).

Definition add_new_order (uuid : Z) (self : t) (timestamp : Z)
    (order_type : OrderType) (side : OrderSide) (quote_name base_name : string)
    (amount price stop_price : Q) : outcome t Z :=
  match Order_init uuid timestamp order_type side quote_name base_name
                   amount price stop_price with
  | Err e => Raise e self
  | Ok new_order =>
      Return (_id new_order)
             {| book := setitem (_id new_order) new_order (book self) |}
  end.

(** [self.book.popitem(last=False)[1]]. *)
Definition pop_order (self : t) : outcome t Order :=
  match book self with
  | [] => Raise KeyError self
  | (_, o) :: rest => Return o {| book := rest |}
  end.

Fixpoint get_orders_loop (str_datetime : Z -> string) (id_only : bool)
    (items : list (Z * Order)) (limit count : Z) (orders : list entry)
  : list entry :=
  match items with
  | [] => orders
  | (order_id, order) :: items' =>
      let orders :=
        if id_only then orders ++ [inl order_id]
        else orders ++ [inr (Order_info str_datetime order)] in
      let count := count + 1 in
      if (count =? limit) && (0 <? limit) then orders
      else get_orders_loop str_datetime id_only items' limit count orders
  end.

Definition get_orders (str_datetime : Z -> string) (self : t) (limit : Z)
    (id_only : bool) : list entry :=
  get_orders_loop str_datetime id_only (book self) limit 0 [].

(** [__iter__]: the orders of the queue, oldest first. *)
Definition iter (self : t) : list Order := (book self).*2.

End OrderQueue.

(** ** [SortedDict] with a key function

    [sd_dict] is the dictionary itself; [sd_list] is the sorted key list, each
    order id paired with the sort key computed when it was added. *)

Record SortedDict := mkSortedDict {
  sd_dict : gmap Z Order;
  sd_list : list (Z * Z)
}.

Definition SortedDict_init : SortedDict := {| sd_dict := ∅; sd_list := [] |}.

(** [SortedKeyList.add]: the new entry goes to the right of every entry whose
    sort key is not larger ([bisect_right]). *)
Fixpoint list_add (key : Z) (value : Z) (l : list (Z * Z)) : list (Z * Z) :=
  match l with
  | [] => [(key, value)]
  | (k', v') :: l' =>
      if k' <=? key then (k', v') :: list_add key value l'
      else (key, value) :: l
  end.

(** [SortedKeyList.remove]: start at the leftmost entry with this sort key
    ([bisect_left]) and scan the run of equal sort keys for the value;
    [None] is [ValueError]. *)
Fixpoint list_remove (key : Z) (value : Z) (l : list (Z * Z))
  : option (list (Z * Z)) :=
  match l with
  | [] => None
  | (k', v') :: l' =>
      if k' <? key then cons (k', v') <$> list_remove key value l'
      else if negb (k' =? key) then None
      else if v' =? value then Some l'
      else cons (k', v') <$> list_remove key value l'
  end.

(** [SortedDict.__setitem__] and [__delitem__]; [key] is the key function,
    [None] when it raises [KeyError]. *)
Definition sd_setitem (key : Z -> option Z) (k : Z) (v : Order)
    (sd : SortedDict) : outcome SortedDict unit :=
  match sd_dict sd !! k with
  | Some _ => Return tt {| sd_dict := <[k := v]> (sd_dict sd); sd_list := sd_list sd |}
  | None =>
      match key k with
      | None => Raise KeyError sd
      | Some t =>
          Return tt {| sd_dict := <[k := v]> (sd_dict sd);
                       sd_list := list_add t k (sd_list sd) |}
      end
  end.

Definition sd_delitem (key : Z -> option Z) (k : Z) (sd : SortedDict)
  : outcome SortedDict unit :=
  match sd_dict sd !! k with
  | None => Raise KeyError sd
  | Some _ =>
      let sd1 := {| sd_dict := delete k (sd_dict sd); sd_list := sd_list sd |} in
      match key k with
      | None => Raise KeyError sd1
      | Some t =>
          match list_remove t k (sd_list sd) with
          | None => Raise ValueError sd1
          | Some l => Return tt {| sd_dict := delete k (sd_dict sd); sd_list := l |}
          end
      end
  end.

Definition sd_keys (sd : SortedDict) : list Z := (sd_list sd).*2.

Definition sd_len (sd : SortedDict) : Z := Z.of_nat (size (sd_dict sd)).

(** Python's [l[start:]]. *)
Definition slice_from {A} (start : Z) (l : list A) : list A :=
  let n := Z.of_nat (length l) in
  let start := if start <? 0 then Z.max (start + n) 0 else Z.min start n in
  drop (Z.to_nat start) l.

(** ** Order book: [OrderBook] *)

Module OrderBook.

Record t := mk {
  book : gmap Z Order;
  time_dict : SortedDict;
  symbol_dict : gmap string SortedDict
}.

Definition init : t :=
  {| book := ∅; time_dict := SortedDict_init; symbol_dict := ∅ |}.

Definition get_order (self : t) (order_id : Z) : result Order :=
  match book self !! order_id with
  | Some o => Ok o
  | None => Err KeyError
  end.

Definition len (self : t) : Z := Z.of_nat (size (book self)).

(** The key function of every index:
    [lambda order_id: self.book[order_id].timestamp], read in the primary map
    as it is when the index calls it. *)
Definition key (self : t) (order_id : Z) : option Z :=
  match book self !! order_id : option Order with
  | Some order => Some (_timestamp order)
  | None => None
  end.

Definition with_time_dict (sd : SortedDict) (self : t) : t :=
  {| book := book self; time_dict := sd; symbol_dict := symbol_dict self |}.

Definition with_symbol (symbol : string) (sd : SortedDict) (self : t) : t :=
  {| book := book self; time_dict := time_dict self;
     symbol_dict := <[symbol := sd]> (symbol_dict self) |}.

(** The statements of [insert_order] and [remove_order], one definition per
    statement. *)

(** [self.book[order_id] = order] *)
Definition set_book (order_id : Z) (order : Order) (self : t) : outcome t unit :=
  Return tt {| book := <[order_id := order]> (book self);
               time_dict := time_dict self;
               symbol_dict := symbol_dict self |}.

(** [self.time_dict[order_id] = order] *)
Definition set_time_dict (order_id : Z) (order : Order) (self : t)
  : outcome t unit :=
  match sd_setitem (key self) order_id order (time_dict self) with
  | Return _ sd => Return tt (with_time_dict sd self)
  | Raise e sd => Raise e (with_time_dict sd self)
  end.

(** [self.symbol_dict[symbol] = SortedDict(...)] *)
Definition new_symbol_dict (symbol : string) (self : t) : outcome t unit :=
  Return tt (with_symbol symbol SortedDict_init self).

(** [self.symbol_dict[symbol][order_id] = order] *)
Definition set_symbol_dict (symbol : string) (order_id : Z) (order : Order)
    (self : t) : outcome t unit :=
  match symbol_dict self !! symbol with
  | None => Raise KeyError self
  | Some sd0 =>
      match sd_setitem (key self) order_id order sd0 with
      | Return _ sd => Return tt (with_symbol symbol sd self)
      | Raise e sd => Raise e (with_symbol symbol sd self)
      end
  end.

(** [del self.time_dict[order_id]] *)
Definition del_time_dict (order_id : Z) (self : t) : outcome t unit :=
  match sd_delitem (key self) order_id (time_dict self) with
  | Return _ sd => Return tt (with_time_dict sd self)
  | Raise e sd => Raise e (with_time_dict sd self)
  end.

(** [del self.symbol_dict[symbol][order_id]] *)
Definition del_symbol_dict (symbol : string) (order_id : Z) (self : t)
  : outcome t unit :=
  match symbol_dict self !! symbol with
  | None => Raise KeyError self
  | Some sd0 =>
      match sd_delitem (key self) order_id sd0 with
      | Return _ sd => Return tt (with_symbol symbol sd self)
      | Raise e sd => Raise e (with_symbol symbol sd self)
      end
  end.

(** [del self.book[order_id]] *)
Definition del_book (order_id : Z) (self : t) : outcome t unit :=
  match book self !! order_id with
  | None => Raise KeyError self
  | Some _ =>
      Return tt {| book := delete order_id (book self);
                   time_dict := time_dict self;
                   symbol_dict := symbol_dict self |}
  end.

Definition insert_order (self : t) (order : Order) : outcome t unit :=
  let order_id := _id order in
  (set_book order_id order >>>
   set_time_dict order_id order >>>
   (let symbol := _symbol order in
    fun self =>
      if negb (bool_decide (is_Some (symbol_dict self !! symbol))) then
        (new_symbol_dict symbol >>> set_symbol_dict symbol order_id order) self
      else
        set_symbol_dict symbol order_id order self)) self.

(** The body of [remove_order], statement by statement, in program order. *)
Definition remove_order_body (order : Order) : list (t -> outcome t unit) :=
  [ del_time_dict (_id order);
    del_symbol_dict (_symbol order) (_id order);
    del_book (_id order) ].

(** Running a block of statements: the first exception ends it. *)
Fixpoint run_block (body : list (t -> outcome t unit)) (self : t)
  : outcome t unit :=
  match body with
  | [] => Return tt self
  | stmt :: body' =>
      match stmt self with
      | Return _ self' => run_block body' self'
      | Raise e self' => Raise e self'
      end
  end.

Definition remove_order (self : t) (order : Order) : outcome t unit :=
  run_block (remove_order_body order) self.

(** The states the book goes through while a block runs: the state after
    each statement that completed. *)
Fixpoint block_states (body : list (t -> outcome t unit)) (self : t) : list t :=
  match body with
  | [] => []
  | stmt :: body' =>
      match stmt self with
      | Return _ self' => self' :: block_states body' self'
      | Raise _ _ => []
      end
  end.

(** [orders.append(self.book[order_id].info)] for each id. *)
Fixpoint infos (str_datetime : Z -> string) (self : t) (order_list : list Z)
  : result (list entry) :=
  match order_list with
  | [] => Ok []
  | order_id :: rest =>
      match book self !! order_id with
      | None => Err KeyError
      | Some o =>
          match infos str_datetime self rest with
          | Ok l => Ok (inr (Order_info str_datetime o) :: l)
          | Err e => Err e
          end
      end
  end.

Definition get_orders (str_datetime : Z -> string) (self : t)
    (symbol : string) (limit : Z) (id_only : bool) : result (list entry) :=
  let finish (order_list : list Z) : result (list entry) :=
    if negb id_only then infos str_datetime self order_list
    else Ok (inl <$> order_list) in
  if String.eqb symbol "" then
    if limit <=? 0 then finish (sd_keys (time_dict self))
    else
      let limit := Z.min limit (len self) in
      finish (slice_from (- limit) (sd_keys (time_dict self)))
  else
    match symbol_dict self !! symbol with
    | None => Ok []
    | Some sd =>
        if limit <=? 0 then finish (sd_keys sd)
        else
          let limit := Z.min limit (sd_len sd) in
          finish (slice_from (- limit) (sd_keys sd))
    end.

End OrderBook.

(** * Definitions used in the statements *)

(** ** Orders and fills *)



(** The order after the first two statements of [execute_transaction]:
    [filled] increased and the transaction appended. *)
Definition record_fill (o : Order) (tx : Transaction) : Order :=
  set_transactions (_transactions o ++ [tx])
    (set_filled (_filled o + _amount tx)%Q o).




(** A limit order to buy 10 BTC, and fills of 4, 6 and 11. *)
Definition order_10 : Order :=
  {| Order_super := Transaction_init 1 "BTC" "USD" 1 10 Buy 1000;
     _status := Submitted; _type := Limit; _stop_price := 0; _filled := 0;
     _transactions := []; _fee := [] |}.

Definition fill_4 : Transaction := Transaction_init 2 "BTC" "USD" 1 4 Buy 1001.
Definition fill_6 : Transaction := Transaction_init 3 "BTC" "USD" 1 6 Buy 1002.
Definition fill_11 : Transaction := Transaction_init 4 "BTC" "USD" 1 11 Buy 1003.

(** ** Snapshots *)

(** [x] rounded to [ndigits] decimal places gives [r]: [r] is a whole number
    of units [10 ^ -ndigits], and no such number is nearer to [x]. *)
Definition rounded_to (ndigits : nat) (x r : Q) : Prop :=
  exists n : Z,
    r = (inject_Z n / inject_Z (10 ^ Z.of_nat ndigits))%Q
    /\ (Qabs (x * inject_Z (10 ^ Z.of_nat ndigits) - inject_Z n) <= 1 # 2)%Q.

(** [d[k]] on a snapshot. *)
Fixpoint snapshot_get (k : string) (d : snapshot) : option value :=
  match d with
  | [] => None
  | (k', v) :: d' => if String.eqb k' k then Some v else snapshot_get k d'
  end.


(** An order with one recorded fill and one fee. *)
Definition order_with_fill : Order :=
  set_fee [("USD", 1 # 3)] (record_fill order_10 fill_4).

(** ** Callers of the pending queue *)

(** The arguments of one [add_new_order] call, the drawn identifier first. *)
Record new_order_args := mk_args {
  arg_uuid : Z;
  arg_timestamp : Z;
  arg_order_type : OrderType;
  arg_side : OrderSide;
  arg_quote_name : string;
  arg_base_name : string;
  arg_amount : Q;
  arg_price : Q;
  arg_stop_price : Q
}.

Definition construct (a : new_order_args) : result Order :=
  Order_init (arg_uuid a) (arg_timestamp a) (arg_order_type a) (arg_side a)
             (arg_quote_name a) (arg_base_name a) (arg_amount a) (arg_price a)
             (arg_stop_price a).

Definition add_call (self : OrderQueue.t) (a : new_order_args)
  : outcome OrderQueue.t Z :=
  OrderQueue.add_new_order (arg_uuid a) self (arg_timestamp a)
    (arg_order_type a) (arg_side a) (arg_quote_name a) (arg_base_name a)
    (arg_amount a) (arg_price a) (arg_stop_price a).

(** Callers of the queue: a run of [add_new_order] calls, and [n] calls of
    [pop_order]; both stop at the first exception. *)
Fixpoint add_all (self : OrderQueue.t) (calls : list new_order_args)
  : outcome OrderQueue.t (list Z) :=
  match calls with
  | [] => Return [] self
  | a :: rest =>
      match add_call self a with
      | Return i self' =>
          match add_all self' rest with
          | Return ids s => Return (i :: ids) s
          | Raise e s => Raise e s
          end
      | Raise e s => Raise e s
      end
  end.

Fixpoint pop_n (n : nat) (self : OrderQueue.t)
  : outcome OrderQueue.t (list Order) :=
  match n with
  | O => Return [] self
  | S n' =>
      match OrderQueue.pop_order self with
      | Return o self' =>
          match pop_n n' self' with
          | Return os s => Return (o :: os) s
          | Raise e s => Raise e s
          end
      | Raise e s => Raise e s
      end
  end.

Definition three_calls : list new_order_args :=
  [ mk_args 30 1000 Limit Buy "BTC" "USD" 1 100 0;
    mk_args 10 1001 Market Sell "ETH" "USD" 2 0 0;
    mk_args 20 1002 StopLimit Buy "BTC" "USD" 3 90 95 ].

(** ** Callers of the order book *)

(** Callers of the order book: a sequence of [insert_order] and
    [remove_order] calls on a fresh book.  A call that raises leaves the book
    in the state it had reached, and the sequence goes on from there. *)
Inductive call :=
| Insert (o : Order)
| Remove (o : Order).

Definition call_order (c : call) : Order :=
  match c with Insert o => o | Remove o => o end.

Definition apply_call (self : OrderBook.t) (c : call) : OrderBook.t :=
  match c with
  | Insert o => final_state (OrderBook.insert_order self o)
  | Remove o => final_state (OrderBook.remove_order self o)
  end.

Definition run (calls : list call) : OrderBook.t :=
  fold_left apply_call calls OrderBook.init.

(** Identifiers are unique to an order object: two orders of a call sequence
    with the same id are the same object, so they have the same symbol and
    timestamp (both are fixed at construction). *)
Definition same_object (o1 o2 : Order) : Prop :=
  _id o1 = _id o2 -> _symbol o1 = _symbol o2 /\ _timestamp o1 = _timestamp o2.

Definition unique_ids (calls : list call) : Prop :=
  Forall (fun c1 =>
            Forall (fun c2 => same_object (call_order c1) (call_order c2)) calls)
         calls.

#[global] Instance same_object_dec (o1 o2 : Order) : Decision (same_object o1 o2).
Proof. unfold same_object. apply _. Defined.

#[global] Instance unique_ids_dec (calls : list call) : Decision (unique_ids calls).
Proof. unfold unique_ids. apply _. Defined.

(** The ids held by the book in the order in which they were inserted: an
    insertion of a new id puts it last, a removal takes the id out. *)
Definition arrival_step (arr : list Z) (c : call) : list Z :=
  match c with
  | Insert o => if bool_decide (_id o ∈ arr) then arr else arr ++ [_id o]
  | Remove o => filter (fun i => i ≠ _id o) arr
  end.

Definition arrival (calls : list call) : list Z :=
  fold_left arrival_step calls [].

(** [x] occurs in [l] at a position to the left of an occurrence of [y]. *)
Fixpoint before {A} (x y : A) (l : list A) : Prop :=
  match l with
  | [] => False
  | z :: l' => (z = x /\ y ∈ l') \/ before x y l'
  end.

(** The timestamp of the order that the primary map holds under an id. *)
Definition timestamp_of (self : OrderBook.t) (order_id : Z) : option Z :=
  OrderBook.key self order_id.

(** The list [l] holds the ids of the orders of the book that satisfy [P],
    each once, in ascending order of timestamp, orders with the same
    timestamp in the order [arr] of their arrival. *)
Definition time_ordered (b : OrderBook.t) (P : Order -> Prop) (arr l : list Z)
  : Prop :=
  NoDup l
  /\ (forall i, i ∈ l <-> exists o : Order, OrderBook.book b !! i = Some o /\ P o)
  /\ (forall i j ti tj,
         before i j l ->
         timestamp_of b i = Some ti -> timestamp_of b j = Some tj -> ti <= tj)
  /\ (forall i j,
         before i j l -> timestamp_of b i = timestamp_of b j -> before i j arr).

(** The order of the pair (timestamp, id): by timestamp, ties by id. *)
Definition timestamp_id_leb (b : OrderBook.t) (i j : Z) : bool :=
  match timestamp_of b i, timestamp_of b j with
  | Some ti, Some tj => (ti <? tj) || ((ti =? tj) && (i <=? j))
  | _, _ => false
  end.

(** Limit orders on two symbols. *)
Definition limit_order (uuid timestamp : Z) (quote_name : string) : Order :=
  {| Order_super := Transaction_init uuid quote_name "USD" 1 10 Buy timestamp;
     _status := Submitted; _type := Limit; _stop_price := 0; _filled := 0;
     _transactions := []; _fee := [] |}.

Definition order_A : Order := limit_order 1 100 "BTC".
Definition order_B : Order := limit_order 2 50 "BTC".
Definition order_C : Order := limit_order 3 200 "BTC".
Definition order_D : Order := limit_order 4 100 "ETH".
Definition order_E : Order := limit_order 5 100 "BTC".

Definition sample_calls : list call :=
  [ Insert order_E; Insert order_A; Insert order_B; Insert order_C;
    Insert order_D; Remove order_B; Insert order_A ].

(** ** The invariant of the order book *)

(** Entries of a sorted key list are ordered by their sort key. *)
Definition key_le (e1 e2 : Z * Z) : Prop := e1.1 <= e2.1.

(** What it means for an index [sd] to be in step with the primary map
    [book]: it holds exactly the orders of [book] that satisfy [P] (all of
    them for the global index, those of one symbol for a per-symbol index),
    its key list has the ids of its dictionary, each once, each with the
    timestamp of its order as cached sort key, in ascending order of sort
    key, and entries with equal sort keys in the order [arr] of arrival. *)
Record sd_ok (book : gmap Z Order) (P : Order -> Prop) (arr : list Z)
    (sd : SortedDict) : Prop := mk_sd_ok {
  ok_dict : forall i,
    is_Some (sd_dict sd !! i) <-> exists o : Order, book !! i = Some o /\ P o;
  ok_keys : forall i, i ∈ sd_keys sd <-> is_Some (sd_dict sd !! i);
  ok_nodup : NoDup (sd_keys sd);
  ok_cached : forall t i,
    (t, i) ∈ sd_list sd ->
    exists o : Order, book !! i = Some o /\ _timestamp o = t;
  ok_sorted : StronglySorted key_le (sd_list sd);
  ok_stable : forall e1 e2,
    before e1 e2 (sd_list sd) -> e1.1 = e2.1 -> before e1.2 e2.2 arr
}.

(** The ids an index holds, in its dictionary or in its sorted key list. *)
Definition index_ids (sd : SortedDict) : gset Z :=
  dom (sd_dict sd) ∪ list_to_set (sd_keys sd).

(** The invariant of the book after the calls [calls]: the global index
    holds every order of the primary map, the index of a symbol the orders
    of that symbol, every order is filed under its own id and its symbol has
    an index, and the ids of the primary map are those of [arrival calls]. *)
Record book_ok (calls : list call) (b : OrderBook.t) : Prop := mk_book_ok {
  bk_time :
    sd_ok (OrderBook.book b) (fun _ => True) (arrival calls)
          (OrderBook.time_dict b);
  bk_symbol : forall sym sd,
    OrderBook.symbol_dict b !! sym = Some sd ->
    sd_ok (OrderBook.book b) (fun o => _symbol o = sym) (arrival calls) sd;
  bk_orders : forall i (o : Order),
    OrderBook.book b !! i = Some o ->
    _id o = i /\ o ∈ call_order <$> calls
    /\ is_Some (OrderBook.symbol_dict b !! _symbol o);
  bk_arrival : forall i,
    i ∈ arrival calls <-> is_Some (OrderBook.book b !! i);
  bk_arrival_nodup : NoDup (arrival calls)
}.

(** ** Callers of an order *)










(** The keys of a transaction snapshot. *)
Definition Transaction_info_keys : list string :=
  [ "datetime"; "timestamp"; "price"; "amount" ].

(** ** Callers of the pending queue, adds and pops mixed *)







(** The entry of [get_orders] for an item of the queue. *)
Definition queue_entry (str_datetime : Z -> string) (id_only : bool)
    (item : Z * Order) : entry :=
  if id_only then inl item.1 else inr (Order_info str_datetime item.2).


(** ** Views of the order book used in the further statements *)

(** What [d[i] = o] makes of an index when the key function gives [t]. *)
Definition sd_put (t i : Z) (o : Order) (sd : SortedDict) : SortedDict :=
  {| sd_dict := <[i := o]> (sd_dict sd);
     sd_list := if bool_decide (is_Some (sd_dict sd !! i)) then sd_list sd
                else list_add t i (sd_list sd) |}.

(** The ids [get_orders] lists for a symbol (all of them for [""]) when it
    is asked for everything. *)
Definition listing (b : OrderBook.t) (symbol : string) : list Z :=
  if String.eqb symbol "" then sd_keys (OrderBook.time_dict b)
  else match OrderBook.symbol_dict b !! symbol with
       | Some sd => sd_keys sd
       | None => []
       end.

(** The symbol of the order the primary map holds under an id. *)
Definition symbol_of (b : OrderBook.t) (order_id : Z) : option string :=
  match OrderBook.book b !! order_id : option Order with
  | Some o => Some (_symbol o)
  | None => None
  end.

(** The symbols of the orders handed to [insert_order]. *)
Fixpoint inserted_symbols (calls : list call) : gset string :=
  match calls with
  | [] => ∅
  | Insert o :: rest => {[ _symbol o ]} ∪ inserted_symbols rest
  | Remove _ :: rest => inserted_symbols rest
  end.

(** The orders a listing for [symbol] is about: all of them for [""]. *)
Definition listed (symbol : string) (o : Order) : Prop :=
  symbol = "" \/ _symbol o = symbol.

(** * Properties *)

(** ** Comparisons on numbers *)





(** ** Construction *)


(** ** Life cycle *)

(** C7. [open] raises its [AssertionError] (the spec's [InvalidTransition])
    exactly for a market order and otherwise sets the status to [Open],
    whatever it was; [accept] raises exactly when the order is not a
    stop-limit one and otherwise sets the status to [Accepted]; [cancel]
    always succeeds and sets the status to [Cancelled].  A raising call leaves
    the order as it was, and a successful one changes the status only. *)
Theorem lifecycle_transitions (o : Order) :
  (_type o = Market <-> open o = Raise AssertionError o)
  /\ (_type o <> Market <-> open o = Return tt (set_status Open o))
  /\ (_type o <> StopLimit <-> accept o = Raise AssertionError o)
  /\ (_type o = StopLimit <-> accept o = Return tt (set_status Accepted o))
  /\ cancel o = Return tt (set_status Cancelled o)
  /\ (forall s, _status (set_status s o) = s
                /\ Order_super (set_status s o) = Order_super o
                /\ _type (set_status s o) = _type o
                /\ _stop_price (set_status s o) = _stop_price o
                /\ _filled (set_status s o) = _filled o
                /\ _transactions (set_status s o) = _transactions o
                /\ _fee (set_status s o) = _fee o).
Proof.
  unfold open, accept, cancel.
  destruct (_type o) eqn:E; simpl; repeat split; try done.
Qed.

(** ** Fills *)












(** ** Pending queue *)

Lemma construct_id (a : new_order_args) (o : Order) :
  construct a = Ok o -> _id o = arg_uuid a.
Proof.
  unfold construct, Order_init. intros H.
  destruct (negb _) in H; [discriminate |].
  destruct (negb _) in H; [discriminate |].
  by injection H as <-.
Qed.

Lemma setitem_fresh (k : Z) (v : Order) (d : list (Z * Order)) :
  k ∉ d.*1 -> OrderQueue.setitem k v d = d ++ [(k, v)].
Proof.
  induction d as [| [k' v'] d IH]; simpl; intros Hk; [done |].
  apply not_elem_of_cons in Hk as [Hne Hk].
  destruct (Z.eqb_spec k' k); [congruence |].
  by rewrite IH.
Qed.

Lemma add_all_appends (calls : list new_order_args) :
  forall (q q' : OrderQueue.t) (ids : list Z),
    NoDup (OrderQueue.book q).*1 ->
    NoDup (arg_uuid <$> calls) ->
    (forall i, i ∈ (OrderQueue.book q).*1 -> i ∉ arg_uuid <$> calls) ->
    add_all q calls = Return ids q' ->
    ids = arg_uuid <$> calls
    /\ exists os : list Order,
        Forall2 (fun a o => construct a = Ok o) calls os
        /\ OrderQueue.book q' = OrderQueue.book q ++ ((fun o : Order => (_id o, o)) <$> os).
Proof.
  induction calls as [| a calls IH]; intros q q' ids Hq Hnd Hfresh H; simpl in H.
  - injection H as <- <-. split; [done |]. exists []. split; [constructor |].
    by rewrite app_nil_r.
  - unfold add_call, OrderQueue.add_new_order in H. fold (construct a) in H.
    destruct (construct a) as [o | e] eqn:Ho; [| discriminate].
    pose proof (construct_id a o Ho) as Hid.
    destruct (add_all _ calls) as [ids1 q1 |] eqn:E; [| discriminate].
    injection H as <- <-.
    rewrite fmap_cons in Hnd. apply NoDup_cons in Hnd as [Hnotin Hnd].
    assert (Hk : _id o ∉ (OrderQueue.book q).*1).
    { rewrite Hid. intros Hin. apply (Hfresh _ Hin). rewrite fmap_cons. left. }
    apply IH in E; simpl.
    + destruct E as [-> (os & Hos & Hbook)]. split; [by rewrite Hid |].
      exists (o :: os). split; [by constructor |].
      rewrite Hbook. simpl. rewrite setitem_fresh by done.
      by rewrite <- app_assoc.
    + rewrite setitem_fresh, fmap_app by done. simpl.
      apply NoDup_app. split; [done |]. split; [| apply NoDup_singleton].
      intros i Hi Hi'. apply list_elem_of_singleton in Hi'. congruence.
    + done.
    + rewrite setitem_fresh, fmap_app by done. simpl.
      intros i Hi Hi'. apply elem_of_app in Hi as [Hi | Hi].
      * apply (Hfresh i Hi). rewrite fmap_cons. by right.
      * apply list_elem_of_singleton in Hi. congruence.
Qed.

Lemma pop_n_all (os : list Order) (rest : list (Z * Order)) :
  pop_n (length os)
        {| OrderQueue.book := ((fun o : Order => (_id o, o)) <$> os) ++ rest |}
  = Return os {| OrderQueue.book := rest |}.
Proof.
  induction os as [| o os IH]; [done |].
  rewrite fmap_cons. cbn [length pop_n app OrderQueue.pop_order OrderQueue.book].
  by rewrite IH.
Qed.

(** C9. Let [N] calls of [add_new_order] on a fresh queue all succeed, the
    identifiers drawn for the orders being pairwise distinct.  Then the calls
    return these identifiers, [N] calls of [pop_order] return the [N] orders
    constructed, in the order in which they were added, and leave the queue
    empty, and one more [pop_order] raises [KeyError] (the spec's
    [EmptyQueue]). *)
Theorem queue_fifo (calls : list new_order_args) (ids : list Z)
    (q : OrderQueue.t) :
  NoDup (arg_uuid <$> calls) ->
  add_all OrderQueue.init calls = Return ids q ->
  exists os : list Order,
    Forall2 (fun a o => construct a = Ok o) calls os
    /\ ids = arg_uuid <$> calls
    /\ OrderQueue.len q = length calls
    /\ pop_n (length calls) q = Return os OrderQueue.init
    /\ OrderQueue.pop_order OrderQueue.init = Raise KeyError OrderQueue.init.
Proof.
  intros Hnd Hadd.
  apply add_all_appends in Hadd as [-> (os & Hos & Hbook)]; try done.
  - exists os. split; [done |]. split; [done |].
    simpl in Hbook. pose proof (Forall2_length _ _ _ Hos) as Hlen.
    destruct q as [b]. simpl in *. subst b.
    split; [unfold OrderQueue.len; simpl; by rewrite length_fmap |].
    split; [| done].
    rewrite Hlen. rewrite <- (app_nil_r (_ <$> os)). apply pop_n_all.
  - simpl. constructor.
  - simpl. intros i Hi. by apply elem_of_nil in Hi.
Qed.

Lemma queue_fifo_witness :
  exists os : list Order,
    Forall2 (fun a o => construct a = Ok o) three_calls os
    /\ [30; 10; 20] = arg_uuid <$> three_calls
    /\ OrderQueue.len (final_state (add_all OrderQueue.init three_calls))
       = length three_calls
    /\ pop_n (length three_calls)
             (final_state (add_all OrderQueue.init three_calls))
       = Return os OrderQueue.init
    /\ OrderQueue.pop_order OrderQueue.init = Raise KeyError OrderQueue.init.
Proof.
  apply (queue_fifo three_calls [30; 10; 20]).
  - apply (bool_decide_unpack _). vm_compute. exact I.
  - reflexivity.
Defined.

(** ** Snapshots *)

Lemma round_half_even_nearest (y : Q) :
  (Qabs (y - inject_Z (round_half_even y)) <= 1 # 2)%Q.
Proof.
  unfold round_half_even.
  pose proof (Qfloor_le y) as Hlo.
  pose proof (Qlt_floor y) as Hhi.
  rewrite inject_Z_plus in Hhi. change (inject_Z 1) with 1%Q in Hhi.
  apply Qabs_Qle_condition.
  destruct (Qcompare_spec (y - inject_Z (Qfloor y)) (1 # 2)) as [He | Hl | Hg].
  - destruct (Z.even (Qfloor y)).
    + split; lra.
    + rewrite inject_Z_plus. change (inject_Z 1) with 1%Q. split; lra.
  - split; lra.
  - rewrite inject_Z_plus. change (inject_Z 1) with 1%Q. split; lra.
Qed.

Lemma round_rounded_to (x : Q) (ndigits : nat) :
  rounded_to ndigits x (round x ndigits).
Proof.
  exists (round_half_even (x * inject_Z (10 ^ Z.of_nat ndigits))).
  split; [reflexivity | apply round_half_even_nearest].
Qed.



(** ** Lists: positions, sorted insertion and removal *)

Section Before.
Context {A : Type}.
Implicit Types (x y : A) (l : list A).

Lemma before_elem_of x y l : before x y l -> x ∈ l /\ y ∈ l.
Proof.
  induction l as [| z l IH]; simpl; [done |].
  intros [[-> Hy] | H].
  - split; [left | by right].
  - destruct (IH H). split; by right.
Qed.

Lemma before_app x y l1 l2 :
  before x y (l1 ++ l2) <->
  before x y l1 \/ before x y l2 \/ (x ∈ l1 /\ y ∈ l2).
Proof.
  induction l1 as [| z l1 IH]; simpl.
  - split; [tauto |]. intros [[] | [H | [H _]]]; [done |].
    by apply elem_of_nil in H.
  - rewrite IH, elem_of_app, !elem_of_cons. naive_solver.
Qed.

Lemma before_filter (P : A -> Prop) (Pdec : forall a, Decision (P a)) x y l :
  before x y (filter P l) <-> before x y l /\ P x /\ P y.
Proof.
  induction l as [| z l IH]; simpl; [tauto |].
  rewrite filter_cons. destruct (decide (P z)) as [Hz | Hz]; simpl.
  - rewrite IH, list_elem_of_filter. split.
    + intros [[-> [Hy Hin]] | (Hb & Hx & Hy)]; [| tauto].
      split; [left; by split | by split].
    + intros ([[-> Hin] | Hb] & Hx & Hy); [left | right]; tauto.
  - rewrite IH. split; [tauto |].
    intros ([[-> Hin] | Hb] & Hx & Hy); [done | tauto].
Qed.

End Before.

Lemma before_fmap_inv {A B} (f : A -> B) (b1 b2 : B) (l : list A) :
  before b1 b2 (f <$> l) ->
  exists x y, b1 = f x /\ b2 = f y /\ before x y l.
Proof.
  induction l as [| z l IH]; simpl; [done |].
  intros [[<- H] | H].
  - apply list_elem_of_fmap in H as (y & -> & Hy).
    exists z, y. split; [done |]. split; [done |]. left. by split.
  - destruct (IH H) as (x & y & -> & -> & Hb).
    exists x, y. split; [done |]. split; [done |]. by right.
Qed.

(** [list_add] splits a sorted list at the new key: entries with a sort key
    up to the new one stay left of it, larger ones right. *)
Lemma list_add_split (t v : Z) (l : list (Z * Z)) :
  StronglySorted key_le l ->
  exists l1 l2,
    l = l1 ++ l2
    /\ list_add t v l = l1 ++ (t, v) :: l2
    /\ Forall (fun e => e.1 <= t) l1
    /\ Forall (fun e => t < e.1) l2.
Proof.
  induction 1 as [| [k' v'] l Hl IH Hall]; simpl.
  - exists [], []. repeat split; constructor.
  - destruct (Z.leb_spec k' t) as [Hle | Hgt].
    + destruct IH as (l1 & l2 & -> & -> & H1 & H2).
      exists ((k', v') :: l1), l2. repeat split; [by constructor | done].
    + exists [], ((k', v') :: l). repeat split; [constructor |].
      constructor; [done |].
      eapply Forall_impl; [exact Hall |]. unfold key_le. simpl. lia.
Qed.

(** [list_remove] finds the entry of a sorted list whose values are pairwise
    distinct, and takes exactly it out. *)
Lemma list_remove_split (t v : Z) (l1 l2 : list (Z * Z)) :
  StronglySorted key_le (l1 ++ (t, v) :: l2) ->
  v ∉ l1.*2 ->
  list_remove t v (l1 ++ (t, v) :: l2) = Some (l1 ++ l2).
Proof.
  induction l1 as [| [k' v'] l1 IH]; simpl; intros Hs Hv.
  - rewrite Z.ltb_irrefl, !Z.eqb_refl. done.
  - apply StronglySorted_inv in Hs as [Hs Hall].
    apply not_elem_of_cons in Hv as [Hne Hv].
    assert (Hk : k' <= t).
    { rewrite Forall_app, Forall_cons in Hall. apply Hall. }
    rewrite (IH Hs Hv).
    destruct (Z.ltb_spec k' t); [done |].
    assert (k' = t) as -> by lia. rewrite Z.eqb_refl. simpl.
    destruct (Z.eqb_spec v' v); [congruence | done].
Qed.

(** ** One index under insertion and removal *)

Lemma sd_ok_dict_None book P arr sd i :
  sd_ok book P arr sd -> (forall o, book !! i = Some o -> ~ P o) ->
  sd_dict sd !! i = None.
Proof.
  intros Hok Hno. apply eq_None_not_Some. intros Hs.
  apply (ok_dict _ _ _ _ Hok) in Hs as (o & Ho & HP). by apply (Hno o).
Qed.

Lemma sd_ok_key_elem book P arr sd e :
  sd_ok book P arr sd -> e ∈ sd_list sd ->
  exists o : Order, book !! e.2 = Some o /\ _timestamp o = e.1 /\ P o.
Proof.
  intros Hok He. destruct e as [t i].
  destruct (ok_cached _ _ _ _ Hok t i He) as (o & Ho & Ht).
  exists o. split; [done |]. split; [done |].
  assert (Hi : i ∈ sd_keys sd).
  { unfold sd_keys. apply list_elem_of_fmap. by exists (t, i). }
  apply (ok_keys _ _ _ _ Hok), (ok_dict _ _ _ _ Hok) in Hi as (o' & Ho' & HP').
  congruence.
Qed.

Lemma sd_ok_empty book P arr :
  (forall i o, book !! i = Some o -> ~ P o) ->
  sd_ok book P arr SortedDict_init.
Proof.
  intros Hno. constructor; simpl.
  - intros i. rewrite lookup_empty. split; [by intros [? ?] |].
    intros (o & Ho & HP). by destruct (Hno i o).
  - intros i. rewrite lookup_empty. unfold sd_keys. simpl. split.
    + intros H. by apply elem_of_nil in H.
    + by intros [? ?].
  - constructor.
  - intros t i H. by apply elem_of_nil in H.
  - constructor.
  - done.
Qed.

(** A new id that belongs in the index is added at its place. *)
Lemma sd_setitem_new book P arr sd key i o :
  sd_ok book P arr sd ->
  book !! i = None -> P o -> key i = Some (_timestamp o) ->
  (forall j, is_Some (book !! j) -> j ∈ arr) ->
  exists sd',
    sd_setitem key i o sd = Return tt sd'
    /\ sd_ok (<[i := o]> book) P (arr ++ [i]) sd'.
Proof.
  intros Hok Hi HP Hkey Harr.
  assert (Hd : sd_dict sd !! i = None).
  { eapply sd_ok_dict_None; [exact Hok |]. intros o' Ho'. congruence. }
  unfold sd_setitem. rewrite Hd, Hkey.
  destruct (list_add_split (_timestamp o) i (sd_list sd) (ok_sorted _ _ _ _ Hok))
    as (l1 & l2 & Hl & Hadd & H1 & H2).
  eexists. split; [reflexivity |]. rewrite Hadd.
  assert (Hold : forall e, e ∈ l1 ++ l2 -> e.2 ≠ i /\ e.2 ∈ arr).
  { intros e He. rewrite <- Hl in He.
    destruct (sd_ok_key_elem _ _ _ _ e Hok He) as (o' & Ho' & _).
    split; [congruence | apply Harr; eauto]. }
  assert (Hnotin : i ∉ (l1 ++ l2).*2).
  { intros Hin. apply list_elem_of_fmap in Hin as (e & -> & He).
    by destruct (Hold e He). }
  pose proof (ok_nodup _ _ _ _ Hok) as Hnd.
  pose proof (ok_sorted _ _ _ _ Hok) as Hsorted.
  unfold sd_keys in Hnd. rewrite Hl in Hnd, Hsorted.
  constructor; simpl.
  - intros j. destruct (decide (i = j)) as [<- | Hne].
    + rewrite !lookup_insert_eq. split; eauto.
    + rewrite !lookup_insert_ne by done. apply Hok.
  - intros j. unfold sd_keys. simpl.
    rewrite fmap_app, fmap_cons, elem_of_app, elem_of_cons. simpl.
    destruct (decide (i = j)) as [<- | Hne].
    + rewrite lookup_insert_eq. split; eauto.
    + rewrite lookup_insert_ne by done.
      rewrite <- (ok_keys _ _ _ _ Hok). unfold sd_keys.
      rewrite Hl, fmap_app, elem_of_app. naive_solver.
  - unfold sd_keys. simpl. rewrite fmap_app, fmap_cons. simpl.
    rewrite fmap_app in Hnd, Hnotin.
    apply NoDup_app in Hnd as (Hnd1 & Hdisj & Hnd2).
    apply NoDup_app. split; [done |]. split.
    + intros x Hx Hx'. apply elem_of_cons in Hx' as [-> | Hx'].
      * apply Hnotin, elem_of_app. by left.
      * by apply (Hdisj x).
    + apply NoDup_cons. split; [| done].
      intros Hin. apply Hnotin, elem_of_app. by right.
  - intros t j Hin.
    assert (Hcase : (t, j) = (_timestamp o, i) \/ (t, j) ∈ l1 ++ l2).
    { rewrite elem_of_app, elem_of_cons in Hin. rewrite elem_of_app. tauto. }
    destruct Hcase as [[= -> ->] | Hin'].
    + rewrite lookup_insert_eq. eauto.
    + destruct (Hold _ Hin') as [Hne _]. simpl in Hne.
      rewrite lookup_insert_ne by done.
      apply (ok_cached _ _ _ _ Hok). by rewrite Hl.
  - apply StronglySorted_app in Hsorted as (Hcross & Hs1 & Hs2).
    apply StronglySorted_app. split; [| split; [done |]].
    + intros x1 x2 Hx1 Hx2. apply elem_of_cons in Hx2 as [-> | Hx2].
      * rewrite Forall_forall in H1. apply (H1 x1 Hx1).
      * by apply Hcross.
    + constructor; [done |].
      eapply Forall_impl; [exact H2 |]. unfold key_le. simpl. lia.
  - intros e1 e2 Hb Heq.
    apply before_app. apply before_app in Hb.
    assert (Hmono : before e1 e2 (l1 ++ l2) ->
                    before e1.2 e2.2 arr
                    \/ before e1.2 e2.2 [i] \/ e1.2 ∈ arr /\ e2.2 ∈ [i]).
    { intros Hb'. left. apply (ok_stable _ _ _ _ Hok); [| done]. by rewrite Hl. }
    destruct Hb as [Hb | [Hb | [Hin1 Hin2]]].
    + apply Hmono, before_app. by left.
    + simpl in Hb. destruct Hb as [[<- Hin] | Hb].
      * exfalso. rewrite Forall_forall in H2. specialize (H2 e2 Hin).
        simpl in Heq. lia.
      * apply Hmono, before_app. right. by left.
    + apply elem_of_cons in Hin2 as [-> | Hin2].
      * right. right. simpl. split; [| left].
        apply (Hold e1). apply elem_of_app. by left.
      * apply Hmono, before_app. right. right. by split.
Qed.

(** An id the index already holds keeps its place when it is set again. *)
Lemma sd_setitem_old book P arr sd key i o o' :
  sd_ok book P arr sd ->
  book !! i = Some o' -> P o' -> P o -> _timestamp o' = _timestamp o ->
  exists sd',
    sd_setitem key i o sd = Return tt sd'
    /\ sd_list sd' = sd_list sd
    /\ sd_ok (<[i := o]> book) P arr sd'.
Proof.
  intros Hok Hi HP' HP Hts.
  assert (Hd : is_Some (sd_dict sd !! i)).
  { apply (ok_dict _ _ _ _ Hok). eauto. }
  unfold sd_setitem. destruct Hd as [x ->].
  eexists. split; [reflexivity |]. split; [reflexivity |].
  constructor; simpl.
  - intros j. destruct (decide (i = j)) as [<- | Hne].
    + rewrite !lookup_insert_eq. split; eauto.
    + rewrite !lookup_insert_ne by done. apply Hok.
  - intros j. unfold sd_keys. simpl. destruct (decide (i = j)) as [<- | Hne].
    + rewrite lookup_insert_eq. split; [eauto | intros _].
      apply (ok_keys _ _ _ _ Hok), (ok_dict _ _ _ _ Hok). eauto.
    + rewrite lookup_insert_ne by done. apply (ok_keys _ _ _ _ Hok).
  - apply (ok_nodup _ _ _ _ Hok).
  - intros t j Hin.
    destruct (ok_cached _ _ _ _ Hok t j Hin) as (o'' & Ho'' & Ht).
    destruct (decide (i = j)) as [<- | Hne].
    + rewrite lookup_insert_eq. exists o. split; [done |]. congruence.
    + rewrite lookup_insert_ne by done. eauto.
  - apply (ok_sorted _ _ _ _ Hok).
  - apply (ok_stable _ _ _ _ Hok).
Qed.

(** An order that does not belong in an index leaves it alone, whether its
    id is new to the book or not. *)
Lemma sd_ok_skip_insert book P arr arr' sd i o :
  sd_ok book P arr sd ->
  ~ P o -> (forall o', book !! i = Some o' -> ~ P o') ->
  (forall x y, before x y arr -> before x y arr') ->
  sd_ok (<[i := o]> book) P arr' sd.
Proof.
  intros Hok HP Hold Harr.
  assert (Hd : sd_dict sd !! i = None) by by eapply sd_ok_dict_None.
  constructor.
  - intros j. destruct (decide (i = j)) as [<- | Hne].
    + rewrite lookup_insert_eq, Hd. split; [by intros [? ?] |].
      by intros (o'' & [= <-] & HP'').
    + rewrite lookup_insert_ne by done. apply Hok.
  - apply Hok.
  - apply Hok.
  - intros t j Hin.
    destruct (sd_ok_key_elem _ _ _ _ (t, j) Hok Hin) as (o'' & Ho'' & Ht & HP'').
    simpl in *. destruct (decide (i = j)) as [<- | Hne].
    + by destruct (Hold o'').
    + rewrite lookup_insert_ne by done. eauto.
  - apply Hok.
  - intros e1 e2 Hb Heq. by apply Harr, (ok_stable _ _ _ _ Hok).
Qed.

Lemma sd_ok_skip_remove book P arr sd i :
  sd_ok book P arr sd ->
  (forall o, book !! i = Some o -> ~ P o) ->
  sd_ok (delete i book) P (filter (fun j => j ≠ i) arr) sd.
Proof.
  intros Hok Hno.
  assert (Hd : sd_dict sd !! i = None) by by eapply sd_ok_dict_None.
  assert (Hne : forall e, e ∈ sd_list sd -> e.2 ≠ i).
  { intros e He Heq.
    destruct (sd_ok_key_elem _ _ _ _ e Hok He) as (o & Ho & _ & HP).
    rewrite Heq in Ho. by apply (Hno o). }
  constructor.
  - intros j. destruct (decide (i = j)) as [<- | Hij].
    + rewrite lookup_delete_eq, Hd. split; [by intros [? ?] |].
      by intros (o & [=] & _).
    + rewrite lookup_delete_ne by done. apply Hok.
  - apply Hok.
  - apply Hok.
  - intros t j Hin. pose proof (Hne _ Hin) as Hj. simpl in Hj.
    rewrite lookup_delete_ne by done. by apply (ok_cached _ _ _ _ Hok).
  - apply Hok.
  - intros e1 e2 Hb Heq. apply before_filter.
    destruct (before_elem_of _ _ _ Hb) as [H1 H2].
    split; [by apply (ok_stable _ _ _ _ Hok) |]. split; by apply Hne.
Qed.

(** An id the index holds is found and taken out of it. *)
Lemma sd_delitem_ok book P arr sd key i o :
  sd_ok book P arr sd ->
  book !! i = Some o -> P o -> key i = Some (_timestamp o) ->
  exists sd',
    sd_delitem key i sd = Return tt sd'
    /\ sd_dict sd' = delete i (sd_dict sd)
    /\ sd_ok (delete i book) P (filter (fun j => j ≠ i) arr) sd'.
Proof.
  intros Hok Hi HP Hkey.
  assert (Hd : is_Some (sd_dict sd !! i)).
  { apply (ok_dict _ _ _ _ Hok). eauto. }
  assert (Hin : (_timestamp o, i) ∈ sd_list sd).
  { apply (ok_keys _ _ _ _ Hok) in Hd. unfold sd_keys in Hd.
    apply list_elem_of_fmap in Hd as ([t j] & -> & He). simpl.
    destruct (ok_cached _ _ _ _ Hok t j He) as (o' & Ho' & <-).
    simpl in Hi. congruence. }
  apply list_elem_of_split in Hin as (l1 & l2 & Hl).
  pose proof (ok_nodup _ _ _ _ Hok) as Hnd.
  pose proof (ok_sorted _ _ _ _ Hok) as Hsorted.
  unfold sd_keys in Hnd. rewrite Hl in Hnd, Hsorted.
  rewrite fmap_app, fmap_cons in Hnd. simpl in Hnd.
  apply NoDup_app in Hnd as (Hnd1 & Hdisj & Hnd2).
  apply NoDup_cons in Hnd2 as [Hi2 Hnd2].
  assert (Hi1 : i ∉ l1.*2).
  { intros H. apply (Hdisj i H). left. }
  unfold sd_delitem. destruct Hd as [x ->]. rewrite Hkey, Hl.
  rewrite (list_remove_split _ _ _ _ Hsorted Hi1).
  eexists. split; [reflexivity |]. split; [reflexivity |].
  assert (Hsub : forall e, e ∈ l1 ++ l2 -> e ∈ sd_list sd /\ e.2 ≠ i).
  { intros e He. rewrite Hl. apply elem_of_app in He as [He | He].
    - split; [apply elem_of_app; by left |]. intros <-.
      apply Hi1, list_elem_of_fmap. by exists e.
    - split; [apply elem_of_app; right; by right |]. intros <-.
      apply Hi2, list_elem_of_fmap. by exists e. }
  constructor; simpl.
  - intros j. destruct (decide (i = j)) as [<- | Hij].
    + rewrite !lookup_delete_eq. split; [by intros [? ?] |].
      by intros (o' & [=] & _).
    + rewrite !lookup_delete_ne by done. apply Hok.
  - intros j. unfold sd_keys. simpl. destruct (decide (i = j)) as [<- | Hij].
    + rewrite lookup_delete_eq. split; [| by intros [? ?]].
      intros H. apply list_elem_of_fmap in H as (e & -> & He).
      by destruct (Hsub e He).
    + rewrite lookup_delete_ne by done.
      rewrite <- (ok_keys _ _ _ _ Hok). unfold sd_keys. rewrite Hl.
      rewrite !fmap_app, fmap_cons, !elem_of_app, elem_of_cons. simpl.
      naive_solver.
  - unfold sd_keys. simpl. rewrite fmap_app. apply NoDup_app.
    split; [done |]. split; [| done].
    intros y Hy Hy'. apply (Hdisj y Hy). by right.
  - intros t j Hin. destruct (Hsub _ Hin) as [Hin' Hj]. simpl in Hj.
    rewrite lookup_delete_ne by done. by apply (ok_cached _ _ _ _ Hok).
  - apply StronglySorted_app in Hsorted as (Hcross & Hs1 & Hs2).
    apply StronglySorted_cons in Hs2 as [_ Hs2].
    apply StronglySorted_app. split; [| done].
    intros x1 x2 Hx1 Hx2. apply Hcross; [done | by right].
  - intros e1 e2 Hb Heq. apply before_filter.
    destruct (before_elem_of _ _ _ Hb) as [H1 H2].
    split; [| split; [by apply (Hsub e1) | by apply (Hsub e2)]].
    apply (ok_stable _ _ _ _ Hok); [| done]. rewrite Hl.
    apply before_app. apply before_app in Hb.
    destruct Hb as [Hb | [Hb | [Hb1 Hb2]]].
    + by left.
    + right. left. simpl. by right.
    + right. right. split; [done | by right].
Qed.

Lemma sd_setitem_ok book P arr sd key i o :
  sd_ok book P arr sd ->
  P o ->
  (forall o' : Order,
      book !! i = Some o' -> P o' /\ _timestamp o' = _timestamp o) ->
  key i = Some (_timestamp o) ->
  (forall j, j ∈ arr <-> is_Some (book !! j)) ->
  exists sd',
    sd_setitem key i o sd = Return tt sd'
    /\ sd_ok (<[i := o]> book) P
             (if bool_decide (i ∈ arr) then arr else arr ++ [i]) sd'.
Proof.
  intros Hok HP Hold Hkey Harr.
  destruct (book !! i) as [o' |] eqn:Hi.
  - destruct (Hold o' eq_refl) as [HP' Hts].
    rewrite bool_decide_eq_true_2 by (apply Harr; eauto).
    destruct (sd_setitem_old _ _ _ _ key i o o' Hok Hi HP' HP Hts)
      as (sd' & Hset & _ & Hok').
    eauto.
  - rewrite bool_decide_eq_false_2.
    + apply sd_setitem_new; try done. intros j Hj. by apply Harr.
    + intros Hin. apply Harr in Hin as [? ?]. congruence.
Qed.

(** ** The book under [insert_order] and [remove_order] *)

Lemma with_time_dict_id (b : OrderBook.t) :
  OrderBook.with_time_dict (OrderBook.time_dict b) b = b.
Proof. by destruct b. Qed.

Lemma arrival_snoc (calls : list call) (c : call) :
  arrival (calls ++ [c]) = arrival_step (arrival calls) c.
Proof. unfold arrival. by rewrite fold_left_app. Qed.

Lemma run_snoc (calls : list call) (c : call) :
  run (calls ++ [c]) = apply_call (run calls) c.
Proof. unfold run. by rewrite fold_left_app. Qed.

Lemma before_arrival_insert (arr : list Z) (i : Z) (x y : Z) :
  before x y arr ->
  before x y (if bool_decide (i ∈ arr) then arr else arr ++ [i]).
Proof.
  intros H. case_bool_decide; [done |]. apply before_app. by left.
Qed.

Lemma insert_order_ok (calls : list call) (b : OrderBook.t) (o : Order) :
  book_ok calls b ->
  (forall o', o' ∈ call_order <$> calls -> same_object o' o) ->
  exists b',
    OrderBook.insert_order b o = Return tt b'
    /\ OrderBook.book b' = <[_id o := o]> (OrderBook.book b)
    /\ book_ok (calls ++ [Insert o]) b'.
Proof.
  intros Hb Hsame.
  destruct b as [book time_dict symbol_dict].
  pose proof (bk_time _ _ Hb) as Htime.
  pose proof (bk_symbol _ _ Hb) as Hsym.
  pose proof (bk_orders _ _ Hb) as Hord.
  pose proof (bk_arrival _ _ Hb) as Harr.
  pose proof (bk_arrival_nodup _ _ Hb) as Hnd.
  simpl in *.
  set (i := _id o) in *. set (sym := _symbol o) in *.
  assert (Hold : forall o' : Order,
             book !! i = Some o' ->
             _symbol o' = sym /\ _timestamp o' = _timestamp o).
  { intros o' Ho'. destruct (Hord i o' Ho') as (Hid & Hin & _).
    by apply (Hsame o' Hin). }
  set (arr' := if bool_decide (i ∈ arrival calls) then arrival calls
               else arrival calls ++ [i]).
  assert (Hkey : forall sd, OrderBook.key
                   {| OrderBook.book := <[i := o]> book;
                      OrderBook.time_dict := time_dict;
                      OrderBook.symbol_dict := sd |} i
                 = Some (_timestamp o)).
  { intros sd. unfold OrderBook.key. simpl. by rewrite lookup_insert_eq. }
  (* the global index *)
  destruct (sd_setitem_ok book (fun _ => True) (arrival calls) time_dict
              (OrderBook.key {| OrderBook.book := <[i := o]> book;
                                OrderBook.time_dict := time_dict;
                                OrderBook.symbol_dict := symbol_dict |})
              i o Htime I)
    as (td' & Hset_td & Hok_td); [naive_solver | apply Hkey | done |].
  (* the index of the symbol, created when it is missing *)
  set (sd0 := default SortedDict_init (symbol_dict !! sym)).
  assert (Hok0 : sd_ok book (fun o' => _symbol o' = sym) (arrival calls) sd0).
  { unfold sd0. destruct (symbol_dict !! sym) as [sd |] eqn:E; simpl.
    - by apply Hsym.
    - apply sd_ok_empty. intros j o' Ho' Hs.
      destruct (Hord j o' Ho') as (_ & _ & [x Hx]). congruence. }
  destruct (sd_setitem_ok book (fun o' => _symbol o' = sym) (arrival calls) sd0
              (fun j => match (<[i := o]> book) !! j : option Order with
                        | Some order => Some (_timestamp order)
                        | None => None
                        end)
              i o Hok0 eq_refl)
    as (sd' & Hset_sd & Hok_sd);
    [naive_solver | by rewrite lookup_insert_eq | done |].
  exists {| OrderBook.book := <[i := o]> book;
            OrderBook.time_dict := td';
            OrderBook.symbol_dict := <[sym := sd']> symbol_dict |}.
  split; [| split; [done |]].
  - unfold OrderBook.insert_order, bind, OrderBook.set_book,
      OrderBook.set_time_dict. simpl. fold i sym.
    rewrite Hset_td. unfold OrderBook.with_time_dict. simpl.
    unfold sd0 in Hset_sd.
    destruct (symbol_dict !! sym) as [sd |] eqn:E; simpl in *.
    + unfold OrderBook.set_symbol_dict. simpl. rewrite E.
      unfold OrderBook.key at 1. simpl. rewrite Hset_sd. done.
    + unfold OrderBook.new_symbol_dict, OrderBook.set_symbol_dict,
        OrderBook.with_symbol. simpl.
      rewrite lookup_insert_eq.
      unfold OrderBook.key at 1. simpl. rewrite Hset_sd.
      unfold OrderBook.with_symbol. simpl. by rewrite insert_insert_eq.
  - constructor; rewrite ?arrival_snoc; simpl; fold i; fold arr'.
    + done.
    + intros sym' sd Hlook. destruct (decide (sym = sym')) as [<- | Hne].
      * rewrite lookup_insert_eq in Hlook. by injection Hlook as <-.
      * rewrite lookup_insert_ne in Hlook by done.
        apply sd_ok_skip_insert with (arr := arrival calls).
        -- by apply Hsym.
        -- done.
        -- intros o' Ho'. destruct (Hold o' Ho'). congruence.
        -- intros x y. apply before_arrival_insert.
    + intros j o' Ho'. destruct (decide (i = j)) as [<- | Hne].
      * rewrite lookup_insert_eq in Ho'. injection Ho' as <-.
        split; [done |]. split.
        -- rewrite fmap_app. apply elem_of_app. right. simpl. left.
        -- fold sym. rewrite lookup_insert_eq. eauto.
      * rewrite lookup_insert_ne in Ho' by done.
        destruct (Hord j o' Ho') as (Hid & Hin & Hs).
        split; [done |]. split.
        -- rewrite fmap_app. apply elem_of_app. by left.
        -- destruct (decide (sym = _symbol o')) as [<- | Hne'].
           ++ rewrite lookup_insert_eq. eauto.
           ++ by rewrite lookup_insert_ne.
    + intros j. unfold arr'. destruct (decide (i = j)) as [<- | Hne].
      * rewrite lookup_insert_eq. split; [eauto | intros _].
        case_bool_decide; [done |]. apply elem_of_app. right. left.
      * rewrite lookup_insert_ne by done. rewrite <- Harr.
        case_bool_decide; [done |].
        rewrite elem_of_app, list_elem_of_singleton. naive_solver.
    + unfold arr'. case_bool_decide; [done |].
      apply NoDup_app. split; [done |]. split; [| apply NoDup_singleton].
      intros x Hx Hx'. apply list_elem_of_singleton in Hx'. congruence.
Qed.

(** [remove_order] of an id the book does not hold stops at its first
    statement and changes nothing. *)
Lemma del_time_dict_absent (calls : list call) (b : OrderBook.t) (i : Z) :
  book_ok calls b ->
  OrderBook.book b !! i = None ->
  OrderBook.del_time_dict i b = Raise KeyError b.
Proof.
  intros Hb Hi.
  assert (Hd : sd_dict (OrderBook.time_dict b) !! i = None).
  { eapply sd_ok_dict_None; [apply (bk_time _ _ Hb) |]. intros o'. congruence. }
  unfold OrderBook.del_time_dict, sd_delitem. rewrite Hd.
  by rewrite with_time_dict_id.
Qed.

Lemma remove_order_absent (calls : list call) (b : OrderBook.t) (o : Order) :
  book_ok calls b ->
  OrderBook.book b !! _id o = None ->
  OrderBook.remove_order b o = Raise KeyError b.
Proof.
  intros Hb Hi.
  unfold OrderBook.remove_order, OrderBook.remove_order_body. simpl.
  by rewrite (del_time_dict_absent calls b _ Hb Hi).
Qed.

(** The three statements of [remove_order] on an id the book holds. *)
Lemma remove_order_steps (calls : list call) (b : OrderBook.t) (o o' : Order) :
  book_ok calls b ->
  OrderBook.book b !! _id o = Some o' ->
  same_object o' o ->
  let i := _id o in
  let sym := _symbol o in
  let arr' := filter (fun j => j ≠ i) (arrival calls) in
  exists td' sd0 sd',
    let b1 := OrderBook.with_time_dict td' b in
    let b2 := OrderBook.with_symbol sym sd' b1 in
    let b3 := {| OrderBook.book := delete i (OrderBook.book b);
                 OrderBook.time_dict := td';
                 OrderBook.symbol_dict := <[sym := sd']> (OrderBook.symbol_dict b) |} in
    OrderBook.symbol_dict b !! sym = Some sd0
    /\ sd_ok (OrderBook.book b) (fun x => _symbol x = sym) (arrival calls) sd0
    /\ OrderBook.del_time_dict i b = Return tt b1
    /\ OrderBook.del_symbol_dict sym i b1 = Return tt b2
    /\ OrderBook.del_book i b2 = Return tt b3
    /\ sd_ok (delete i (OrderBook.book b)) (fun _ => True) arr' td'
    /\ sd_ok (delete i (OrderBook.book b)) (fun x => _symbol x = sym) arr' sd'.
Proof.
  intros Hb Hi Hsame i sym arr'. fold i in Hi.
  destruct (bk_orders _ _ Hb i o' Hi) as (Hid & Hin & [sd0 Hsd0]).
  destruct (Hsame Hid) as [Hsym Hts]. fold sym in Hsym. rewrite Hsym in Hsd0.
  assert (Hkey : OrderBook.key b i = Some (_timestamp o)).
  { unfold OrderBook.key. by rewrite Hi, Hts. }
  destruct (sd_delitem_ok _ _ _ _ (OrderBook.key b) i o' (bk_time _ _ Hb) Hi I)
    as (td' & Hdel_td & _ & Hok_td); [by rewrite Hkey, Hts |].
  destruct (sd_delitem_ok _ _ _ _ (OrderBook.key b) i o'
              (bk_symbol _ _ Hb sym sd0 Hsd0) Hi Hsym)
    as (sd' & Hdel_sd & _ & Hok_sd); [by rewrite Hkey, Hts |].
  exists td', sd0, sd'. cbv zeta.
  split; [done |]. split; [by apply (bk_symbol _ _ Hb) |].
  split; [| split; [| split; [| done]]].
  - unfold OrderBook.del_time_dict. by rewrite Hdel_td.
  - unfold OrderBook.del_symbol_dict. simpl. rewrite Hsd0.
    change (OrderBook.key (OrderBook.with_time_dict td' b))
      with (OrderBook.key b).
    by rewrite Hdel_sd.
  - unfold OrderBook.del_book. simpl. by rewrite Hi.
Qed.

Lemma filter_ne_absent (i : Z) (l : list Z) :
  i ∉ l -> filter (fun j => j ≠ i) l = l.
Proof.
  induction l as [| x l IH]; [done |].
  intros H. apply not_elem_of_cons in H as [Hne H].
  rewrite filter_cons. destruct (decide (x ≠ i)) as [_ | Hn].
  - by rewrite IH.
  - exfalso. apply Hn. congruence.
Qed.

Lemma remove_order_ok (calls : list call) (b : OrderBook.t) (o : Order) :
  book_ok calls b ->
  (forall o', o' ∈ call_order <$> calls -> same_object o' o) ->
  book_ok (calls ++ [Remove o]) (final_state (OrderBook.remove_order b o)).
Proof.
  intros Hb Hsame.
  destruct (OrderBook.book b !! _id o) as [o' |] eqn:Hi.
  - destruct (bk_orders _ _ Hb _ o' Hi) as (Hid & Hin & _).
    destruct (remove_order_steps calls b o o' Hb Hi (Hsame o' Hin))
      as (td' & sd0 & sd' & Hsd0 & Hok0 & H1 & H2 & H3 & Hok_td & Hok_sd).
    unfold OrderBook.remove_order, OrderBook.remove_order_body. simpl.
    rewrite H1, H2, H3. simpl.
    destruct (Hsame o' Hin Hid) as [Hsym Hts].
    constructor; rewrite ?arrival_snoc; simpl.
    + done.
    + intros sym' sd Hlook.
      destruct (decide (_symbol o = sym')) as [<- | Hne].
      * rewrite lookup_insert_eq in Hlook. by injection Hlook as <-.
      * rewrite lookup_insert_ne in Hlook by done.
        apply sd_ok_skip_remove; [by apply (bk_symbol _ _ Hb) |].
        intros o'' Ho''. congruence.
    + intros j o'' Ho''.
      destruct (decide (_id o = j)) as [<- | Hne];
        [by rewrite lookup_delete_eq in Ho'' |].
      rewrite lookup_delete_ne in Ho'' by done.
      destruct (bk_orders _ _ Hb j o'' Ho'') as (Hid' & Hin' & Hs).
      split; [done |]. split.
      * rewrite fmap_app. apply elem_of_app. by left.
      * destruct (decide (_symbol o = _symbol o'')) as [<- | Hne'].
        -- rewrite lookup_insert_eq. eauto.
        -- by rewrite lookup_insert_ne.
    + intros j. rewrite list_elem_of_filter, (bk_arrival _ _ Hb).
      destruct (decide (_id o = j)) as [<- | Hne].
      * rewrite lookup_delete_eq. split; [tauto | by intros [? ?]].
      * rewrite lookup_delete_ne by done. naive_solver.
    + apply NoDup_filter, (bk_arrival_nodup _ _ Hb).
  - rewrite (remove_order_absent calls b o Hb Hi). simpl.
    assert (Hnot : _id o ∉ arrival calls).
    { intros H. apply (bk_arrival _ _ Hb) in H as [? ?]. congruence. }
    constructor; rewrite ?arrival_snoc; simpl;
      rewrite ?(filter_ne_absent _ _ Hnot).
    + apply Hb.
    + apply Hb.
    + intros j o'' Ho''.
      destruct (bk_orders _ _ Hb j o'' Ho'') as (Hid' & Hin' & Hs).
      split; [done |]. split; [| done].
      rewrite fmap_app. apply elem_of_app. by left.
    + apply Hb.
    + apply Hb.
Qed.

Lemma unique_ids_snoc (calls : list call) (c : call) :
  unique_ids (calls ++ [c]) ->
  unique_ids calls
  /\ forall o', o' ∈ call_order <$> calls -> same_object o' (call_order c).
Proof.
  unfold unique_ids. rewrite !Forall_forall. intros H. split.
  - intros c1 H1. apply Forall_forall. intros c2 H2.
    assert (Hc1 : c1 ∈ calls ++ [c]) by (apply elem_of_app; by left).
    specialize (H c1 Hc1). rewrite Forall_forall in H.
    apply H, elem_of_app. by left.
  - intros o' Ho'. apply list_elem_of_fmap in Ho' as (c1 & -> & H1).
    assert (Hc1 : c1 ∈ calls ++ [c]) by (apply elem_of_app; by left).
    specialize (H c1 Hc1). rewrite Forall_forall in H.
    apply H, elem_of_app. right. left.
Qed.

Lemma book_ok_init : book_ok [] OrderBook.init.
Proof.
  constructor; simpl.
  - apply sd_ok_empty. intros i o H. by rewrite lookup_empty in H.
  - intros sym sd H. by rewrite lookup_empty in H.
  - intros i o H. by rewrite lookup_empty in H.
  - intros i. unfold arrival. simpl. rewrite lookup_empty. split.
    + intros H. by apply elem_of_nil in H.
    + by intros [? ?].
  - constructor.
Qed.

(** Every book that calls with unique ids can build satisfies the
    invariant. *)
Lemma run_ok (calls : list call) : unique_ids calls -> book_ok calls (run calls).
Proof.
  induction calls as [| c calls IH] using rev_ind; intros Hu.
  - apply book_ok_init.
  - apply unique_ids_snoc in Hu as [Hu Hsame].
    rewrite run_snoc. specialize (IH Hu). destruct c as [o | o]; simpl in *.
    + destruct (insert_order_ok calls (run calls) o IH Hsame)
        as (b' & -> & _ & Hok). done.
    + by apply remove_order_ok.
Qed.

(** ** The order book: consistency of the three views *)

Lemma sd_ok_dom book P arr sd :
  sd_ok book P arr sd -> dom (sd_dict sd) = list_to_set (sd_keys sd).
Proof.
  intros Hok. apply set_eq. intros i.
  rewrite elem_of_dom, elem_of_list_to_set. symmetry. apply Hok.
Qed.

Lemma sd_ok_index_ids book P arr sd i :
  sd_ok book P arr sd ->
  i ∈ index_ids sd <-> exists o : Order, book !! i = Some o /\ P o.
Proof.
  intros Hok. unfold index_ids.
  rewrite <- (sd_ok_dom _ _ _ _ Hok), union_idemp_L, elem_of_dom.
  apply Hok.
Qed.

(** C1. After any sequence of [insert_order] and [remove_order] calls on a
    fresh book (identifiers being unique to an order), the ids of the global
    time index are those of the primary map, an id is in the primary map
    exactly when some per-symbol index holds it, no id is in the indices of
    two symbols, and the index that holds it is the one of its order's
    symbol.  Within every index the dictionary and the sorted key list hold
    the same ids, each once. *)
Theorem order_book_consistency (calls : list call) :
  unique_ids calls ->
  let b := run calls in
  index_ids (OrderBook.time_dict b) = dom (OrderBook.book b)
  /\ dom (sd_dict (OrderBook.time_dict b))
     = list_to_set (sd_keys (OrderBook.time_dict b))
  /\ NoDup (sd_keys (OrderBook.time_dict b))
  /\ (forall sym sd,
         OrderBook.symbol_dict b !! sym = Some sd ->
         dom (sd_dict sd) = list_to_set (sd_keys sd) /\ NoDup (sd_keys sd))
  /\ (forall i,
         i ∈ dom (OrderBook.book b) <->
         exists sym sd,
           OrderBook.symbol_dict b !! sym = Some sd /\ i ∈ index_ids sd)
  /\ (forall i sym1 sd1 sym2 sd2,
         OrderBook.symbol_dict b !! sym1 = Some sd1 -> i ∈ index_ids sd1 ->
         OrderBook.symbol_dict b !! sym2 = Some sd2 -> i ∈ index_ids sd2 ->
         sym1 = sym2)
  /\ (forall i (o : Order),
         OrderBook.book b !! i = Some o ->
         exists sd,
           OrderBook.symbol_dict b !! _symbol o = Some sd /\ i ∈ index_ids sd).
Proof.
  intros Hu b. pose proof (run_ok calls Hu) as Hb. fold b in Hb.
  pose proof (bk_time _ _ Hb) as Htime.
  assert (Hin : forall i (o : Order),
             OrderBook.book b !! i = Some o ->
             exists sd,
               OrderBook.symbol_dict b !! _symbol o = Some sd
               /\ i ∈ index_ids sd).
  { intros i o Ho. destruct (bk_orders _ _ Hb i o Ho) as (_ & _ & [sd Hsd]).
    exists sd. split; [done |].
    apply (sd_ok_index_ids _ _ _ _ i (bk_symbol _ _ Hb _ _ Hsd)). eauto. }
  split; [| split; [| split; [| split; [| split; [| split]]]]].
  - apply set_eq. intros i.
    rewrite (sd_ok_index_ids _ _ _ _ i Htime), elem_of_dom.
    split; [intros (o & -> & _); eauto | intros [o Ho]; eauto].
  - by apply (sd_ok_dom _ _ _ _ Htime).
  - apply Htime.
  - intros sym sd Hsd. pose proof (bk_symbol _ _ Hb _ _ Hsd) as Hok.
    split; [by apply (sd_ok_dom _ _ _ _ Hok) | apply Hok].
  - intros i. rewrite elem_of_dom. split.
    + intros [o Ho]. destruct (Hin i o Ho) as (sd & Hsd & Hi). eauto.
    + intros (sym & sd & Hsd & Hi).
      apply (sd_ok_index_ids _ _ _ _ i (bk_symbol _ _ Hb _ _ Hsd)) in Hi
        as (o & Ho & _).
      eauto.
  - intros i sym1 sd1 sym2 sd2 Hsd1 Hi1 Hsd2 Hi2.
    apply (sd_ok_index_ids _ _ _ _ i (bk_symbol _ _ Hb _ _ Hsd1)) in Hi1
      as (o1 & Ho1 & <-).
    apply (sd_ok_index_ids _ _ _ _ i (bk_symbol _ _ Hb _ _ Hsd2)) in Hi2
      as (o2 & Ho2 & <-).
    congruence.
  - exact Hin.
Qed.

Lemma order_book_consistency_witness :
  let b := run sample_calls in
  index_ids (OrderBook.time_dict b) = dom (OrderBook.book b)
  /\ dom (sd_dict (OrderBook.time_dict b))
     = list_to_set (sd_keys (OrderBook.time_dict b))
  /\ NoDup (sd_keys (OrderBook.time_dict b))
  /\ (forall sym sd,
         OrderBook.symbol_dict b !! sym = Some sd ->
         dom (sd_dict sd) = list_to_set (sd_keys sd) /\ NoDup (sd_keys sd))
  /\ (forall i,
         i ∈ dom (OrderBook.book b) <->
         exists sym sd,
           OrderBook.symbol_dict b !! sym = Some sd /\ i ∈ index_ids sd)
  /\ (forall i sym1 sd1 sym2 sd2,
         OrderBook.symbol_dict b !! sym1 = Some sd1 -> i ∈ index_ids sd1 ->
         OrderBook.symbol_dict b !! sym2 = Some sd2 -> i ∈ index_ids sd2 ->
         sym1 = sym2)
  /\ (forall i (o : Order),
         OrderBook.book b !! i = Some o ->
         exists sd,
           OrderBook.symbol_dict b !! _symbol o = Some sd /\ i ∈ index_ids sd).
Proof.
  apply (order_book_consistency sample_calls).
  apply (bool_decide_unpack _). vm_compute. exact I.
Defined.

(** C10. On a book built by such calls, [remove_order] of an order whose id
    is not in the primary map raises [KeyError] and leaves the primary map,
    the global index and every per-symbol index as they were: the exception
    carries the very book the call started from, and no statement of the
    body completes.  The key function of the indices has no timestamp for
    such an id. *)
Theorem remove_order_unknown_id (calls : list call) (o : Order) :
  unique_ids calls ->
  _id o ∉ dom (OrderBook.book (run calls)) ->
  OrderBook.remove_order (run calls) o = Raise KeyError (run calls)
  /\ OrderBook.block_states (OrderBook.remove_order_body o) (run calls) = []
  /\ OrderBook.key (run calls) (_id o) = None.
Proof.
  intros Hu Hi. pose proof (run_ok calls Hu) as Hb.
  apply not_elem_of_dom in Hi.
  split; [by apply (remove_order_absent calls) |]. split.
  - unfold OrderBook.remove_order_body. simpl.
    by rewrite (del_time_dict_absent calls _ _ Hb Hi).
  - unfold OrderBook.key. by rewrite Hi.
Qed.

Lemma remove_order_unknown_id_witness :
  OrderBook.remove_order (run sample_calls) order_B
  = Raise KeyError (run sample_calls)
  /\ OrderBook.block_states (OrderBook.remove_order_body order_B)
                            (run sample_calls) = []
  /\ OrderBook.key (run sample_calls) (_id order_B) = None.
Proof.
  apply (remove_order_unknown_id sample_calls order_B).
  - apply (bool_decide_unpack _). vm_compute. exact I.
  - apply (bool_decide_unpack _). vm_compute. exact I.
Defined.

(** ** The order of the deletions in [remove_order] *)

(** C4 (as the code has it). For an order the book holds, [remove_order]
    runs its three deletions to the end, in this order: first the id leaves
    the global time index (the per-symbol index and the primary map still
    hold it), then it leaves the index of the order's symbol (the primary map
    still holds it), and last it leaves the primary map. *)
Theorem remove_order_sequence (calls : list call) (o : Order) :
  unique_ids (calls ++ [Remove o]) ->
  _id o ∈ dom (OrderBook.book (run calls)) ->
  let b := run calls in
  let i := _id o in
  let in_symbol_index (s : OrderBook.t) :=
    exists sd, OrderBook.symbol_dict s !! _symbol o = Some sd /\ i ∈ index_ids sd in
  let in_no_symbol_index (s : OrderBook.t) :=
    forall sym sd, OrderBook.symbol_dict s !! sym = Some sd -> i ∉ index_ids sd in
  exists b1 b2 b3,
    OrderBook.block_states (OrderBook.remove_order_body o) b = [b1; b2; b3]
    /\ OrderBook.remove_order b o = Return tt b3
    /\ (i ∈ index_ids (OrderBook.time_dict b) /\ in_symbol_index b
        /\ i ∈ dom (OrderBook.book b))
    /\ ((i ∉ index_ids (OrderBook.time_dict b1)) /\ in_symbol_index b1
        /\ i ∈ dom (OrderBook.book b1))
    /\ ((i ∉ index_ids (OrderBook.time_dict b2)) /\ in_no_symbol_index b2
        /\ i ∈ dom (OrderBook.book b2))
    /\ ((i ∉ index_ids (OrderBook.time_dict b3)) /\ in_no_symbol_index b3
        /\ i ∉ dom (OrderBook.book b3)).
Proof.
  intros Hu Hi. cbv zeta. set (b := run calls) in *. set (i := _id o) in *.
  apply unique_ids_snoc in Hu as [Hu Hsame]. simpl in Hsame.
  pose proof (run_ok calls Hu) as Hb. fold b in Hb.
  apply elem_of_dom in Hi as [o' Ho'].
  destruct (bk_orders _ _ Hb _ o' Ho') as (Hid & Hin & _).
  destruct (remove_order_steps calls b o o' Hb Ho' (Hsame o' Hin))
    as (td' & sd0 & sd' & Hsd0 & Hok0 & H1 & H2 & H3 & Hok_td & Hok_sd).
  destruct (Hsame o' Hin Hid) as [Hsym Hts].
  cbv zeta in H1, H2, H3, Hok_td, Hok_sd. fold i in H1, H2, H3, Hok_td, Hok_sd.
  assert (Hgone : forall P arr sd,
             sd_ok (delete i (OrderBook.book b)) P arr sd -> i ∉ index_ids sd).
  { intros P arr sd Hok Hin'.
    apply (sd_ok_index_ids _ _ _ _ i Hok) in Hin' as (x & Hx & _).
    by rewrite lookup_delete_eq in Hx. }
  assert (Hno : forall sym sd,
             <[_symbol o := sd']> (OrderBook.symbol_dict b) !! sym = Some sd ->
             i ∉ index_ids sd).
  { intros sym sd Hlook. destruct (decide (_symbol o = sym)) as [<- | Hne].
    - rewrite lookup_insert_eq in Hlook. injection Hlook as <-.
      by apply (Hgone _ _ _ Hok_sd).
    - rewrite lookup_insert_ne in Hlook by done. intros Hin'.
      apply (sd_ok_index_ids _ _ _ _ i (bk_symbol _ _ Hb _ _ Hlook)) in Hin'
        as (x & Hx & Hxs).
      congruence. }
  eexists _, _, _. split.
  { unfold OrderBook.remove_order_body. simpl. fold i.
    rewrite H1, H2, H3. reflexivity. }
  split.
  { unfold OrderBook.remove_order, OrderBook.remove_order_body. simpl. fold i.
    rewrite H1, H2, H3. reflexivity. }
  assert (His : i ∈ index_ids sd0).
  { apply (sd_ok_index_ids _ _ _ _ i Hok0). eauto. }
  repeat split; simpl.
  - apply (sd_ok_index_ids _ _ _ _ i (bk_time _ _ Hb)). eauto.
  - exists sd0. by split.
  - apply elem_of_dom. eauto.
  - by apply (Hgone _ _ _ Hok_td).
  - exists sd0. by split.
  - apply elem_of_dom. eauto.
  - by apply (Hgone _ _ _ Hok_td).
  - exact Hno.
  - apply elem_of_dom. eauto.
  - by apply (Hgone _ _ _ Hok_td).
  - exact Hno.
  - rewrite elem_of_dom, lookup_delete_eq. by intros [? ?].
Qed.

Lemma remove_order_sequence_witness :
  let b := run sample_calls in
  let o := order_A in
  let i := _id o in
  let in_symbol_index (s : OrderBook.t) :=
    exists sd, OrderBook.symbol_dict s !! _symbol o = Some sd /\ i ∈ index_ids sd in
  let in_no_symbol_index (s : OrderBook.t) :=
    forall sym sd, OrderBook.symbol_dict s !! sym = Some sd -> i ∉ index_ids sd in
  exists b1 b2 b3,
    OrderBook.block_states (OrderBook.remove_order_body o) b = [b1; b2; b3]
    /\ OrderBook.remove_order b o = Return tt b3
    /\ (i ∈ index_ids (OrderBook.time_dict b) /\ in_symbol_index b
        /\ i ∈ dom (OrderBook.book b))
    /\ ((i ∉ index_ids (OrderBook.time_dict b1)) /\ in_symbol_index b1
        /\ i ∈ dom (OrderBook.book b1))
    /\ ((i ∉ index_ids (OrderBook.time_dict b2)) /\ in_no_symbol_index b2
        /\ i ∈ dom (OrderBook.book b2))
    /\ ((i ∉ index_ids (OrderBook.time_dict b3)) /\ in_no_symbol_index b3
        /\ i ∉ dom (OrderBook.book b3)).
Proof.
  apply (remove_order_sequence sample_calls order_A).
  - apply (bool_decide_unpack _). vm_compute. exact I.
  - apply (bool_decide_unpack _). vm_compute. exact I.
Defined.

(** C4 as stated fails on the order of the first two steps: after the first
    statement of [remove_order] the id has left the global time index and is
    still in the per-symbol index, so the per-symbol index is not the first
    one to lose it. *)
Lemma remove_order_time_index_first :
  exists b1 b2 b3 sd,
    OrderBook.block_states (OrderBook.remove_order_body order_A)
                           (run [Insert order_A]) = [b1; b2; b3]
    /\ bool_decide (_id order_A ∈ index_ids (OrderBook.time_dict b1)) = false
    /\ OrderBook.symbol_dict b1 !! _symbol order_A = Some sd
    /\ bool_decide (_id order_A ∈ index_ids sd) = true
    /\ OrderBook.del_time_dict (_id order_A) (run [Insert order_A])
       = Return tt b1.
Proof.
  eexists _, _, _, _. split; [vm_compute; reflexivity |].
  split; [vm_compute; reflexivity |].
  split; [vm_compute; reflexivity |].
  split; vm_compute; reflexivity.
Qed.

(** ** Queries *)

Lemma StronglySorted_before {A} (R : relation A) (x y : A) (l : list A) :
  StronglySorted R l -> before x y l -> R x y.
Proof.
  induction 1 as [| z l Hs IH Hall]; simpl; [done |].
  intros [[-> Hy] | Hb]; [| by apply IH].
  rewrite Forall_forall in Hall. by apply Hall.
Qed.

Lemma sd_ok_time_ordered (b : OrderBook.t) P arr sd :
  sd_ok (OrderBook.book b) P arr sd -> time_ordered b P arr (sd_keys sd).
Proof.
  intros Hok. unfold time_ordered.
  split; [apply Hok |]. split; [| split].
  - intros i. rewrite (ok_keys _ _ _ _ Hok). apply Hok.
  - intros i j ti tj Hb Hi Hj.
    apply before_fmap_inv in Hb as ([t1 i1] & [t2 j1] & -> & -> & Hb).
    pose proof (StronglySorted_before _ _ _ _ (ok_sorted _ _ _ _ Hok) Hb) as Hle.
    destruct (before_elem_of _ _ _ Hb) as [H1 H2].
    destruct (ok_cached _ _ _ _ Hok _ _ H1) as (o1 & Ho1 & Ht1).
    destruct (ok_cached _ _ _ _ Hok _ _ H2) as (o2 & Ho2 & Ht2).
    unfold timestamp_of, OrderBook.key in Hi, Hj. simpl in Hi, Hj.
    rewrite Ho1 in Hi. rewrite Ho2 in Hj. unfold key_le in Hle. simpl in Hle.
    injection Hi as <-. injection Hj as <-. lia.
  - intros i j Hb Heq.
    apply before_fmap_inv in Hb as ([t1 i1] & [t2 j1] & -> & -> & Hb).
    destruct (before_elem_of _ _ _ Hb) as [H1 H2].
    destruct (ok_cached _ _ _ _ Hok _ _ H1) as (o1 & Ho1 & Ht1).
    destruct (ok_cached _ _ _ _ Hok _ _ H2) as (o2 & Ho2 & Ht2).
    unfold timestamp_of, OrderBook.key in Heq. simpl in Heq.
    rewrite Ho1, Ho2 in Heq.
    apply (ok_stable _ _ _ _ Hok _ _ Hb). simpl. congruence.
Qed.

Lemma sd_ok_len book P arr sd :
  sd_ok book P arr sd -> sd_len sd = Z.of_nat (length (sd_keys sd)).
Proof.
  intros Hok. unfold sd_len. f_equal.
  rewrite <- size_dom, (sd_ok_dom _ _ _ _ Hok).
  apply size_list_to_set, Hok.
Qed.

Lemma book_ok_len (calls : list call) (b : OrderBook.t) :
  book_ok calls b ->
  OrderBook.len b = Z.of_nat (length (sd_keys (OrderBook.time_dict b))).
Proof.
  intros Hb. rewrite <- (sd_ok_len _ _ _ _ (bk_time _ _ Hb)).
  unfold OrderBook.len, sd_len. f_equal. rewrite <- !size_dom. f_equal.
  apply set_eq. intros i. rewrite !elem_of_dom.
  rewrite (ok_dict _ _ _ _ (bk_time _ _ Hb)).
  split; [intros [o Ho]; eauto | intros (o & Ho & _); eauto].
Qed.

(** [l[-k:]] for [k = min(limit, len(l))] is the suffix of [l] of length
    [k]. *)
Lemma slice_from_tail {A} (limit : Z) (l : list A) :
  0 < limit ->
  let k := Z.min limit (Z.of_nat (length l)) in
  exists older recent,
    l = older ++ recent
    /\ Z.of_nat (length recent) = k
    /\ slice_from (- k) l = recent.
Proof.
  intros Hpos k. unfold slice_from.
  set (n := Z.of_nat (length l)) in *.
  assert (Hk : 0 <= k <= n) by (unfold k, n; lia).
  set (start := if - k <? 0 then Z.max (- k + n) 0 else Z.min (- k) n).
  assert (Hstart : start = n - k).
  { unfold start. destruct (Z.ltb_spec (- k) 0); lia. }
  exists (take (Z.to_nat start) l), (drop (Z.to_nat start) l).
  split; [by rewrite take_drop |]. split; [| done].
  rewrite length_drop. unfold n in *. lia.
Qed.

Lemma get_orders_index (str_datetime : Z -> string) (b : OrderBook.t)
    (symbol : string) (sd : SortedDict) (len : Z) :
  len = Z.of_nat (length (sd_keys sd)) ->
  (forall limit,
      OrderBook.get_orders str_datetime b symbol limit true
      = if limit <=? 0 then Ok (inl <$> sd_keys sd)
        else Ok (inl <$> slice_from (- Z.min limit len) (sd_keys sd))) ->
  (forall limit,
      limit <= 0 ->
      OrderBook.get_orders str_datetime b symbol limit true
      = Ok (inl <$> sd_keys sd))
  /\ (forall limit,
         0 < limit ->
         exists older recent,
           sd_keys sd = older ++ recent
           /\ Z.of_nat (length recent)
              = Z.min limit (Z.of_nat (length (sd_keys sd)))
           /\ OrderBook.get_orders str_datetime b symbol limit true
              = Ok (inl <$> recent)).
Proof.
  intros -> Hget. split; intros limit Hl; rewrite Hget.
  - by destruct (Z.leb_spec limit 0); [| lia].
  - destruct (Z.leb_spec limit 0); [lia |].
    destruct (slice_from_tail limit (sd_keys sd) Hl) as (older & recent & H1 & H2 & H3).
    exists older, recent. by rewrite H3.
Qed.

(** C5 (as the code has it). On a book built by calls with unique ids,
    [get_orders] with the empty symbol and [limit <= 0] returns the ids of
    all orders in ascending order of timestamp, orders with the same
    timestamp in the order in which they were inserted; with [limit = k > 0]
    it returns the last [min k n] entries of that list, in the same order;
    with another symbol it does the same over the orders of that symbol, and
    it returns the empty list when the symbol has no index. *)
Theorem get_orders_ordering (str_datetime : Z -> string) (calls : list call) :
  unique_ids calls ->
  let b := run calls in
  let answers (symbol : string) (all : list Z) :=
    (forall limit,
        limit <= 0 ->
        OrderBook.get_orders str_datetime b symbol limit true
        = Ok (inl <$> all))
    /\ (forall limit,
           0 < limit ->
           exists older recent,
             all = older ++ recent
             /\ Z.of_nat (length recent) = Z.min limit (Z.of_nat (length all))
             /\ OrderBook.get_orders str_datetime b symbol limit true
                = Ok (inl <$> recent)) in
  (exists all,
      time_ordered b (fun _ => True) (arrival calls) all /\ answers "" all)
  /\ (forall symbol,
         symbol ≠ "" ->
         match OrderBook.symbol_dict b !! symbol with
         | None =>
             forall limit id_only,
               OrderBook.get_orders str_datetime b symbol limit id_only = Ok []
         | Some _ =>
             exists all,
               time_ordered b (fun o => _symbol o = symbol) (arrival calls) all
               /\ answers symbol all
         end).
Proof.
  intros Hu. cbv zeta. pose proof (run_ok calls Hu) as Hb.
  set (b := run calls) in *. split.
  - exists (sd_keys (OrderBook.time_dict b)).
    split; [apply sd_ok_time_ordered, Hb |].
    apply (get_orders_index _ _ _ _ (OrderBook.len b)).
    + by apply (book_ok_len calls).
    + intros limit. unfold OrderBook.get_orders. simpl.
      by destruct (limit <=? 0).
  - intros symbol Hne.
    assert (Heqb : String.eqb symbol "" = false) by by apply String.eqb_neq.
    destruct (OrderBook.symbol_dict b !! symbol) as [sd |] eqn:Hsd.
    + exists (sd_keys sd).
      pose proof (bk_symbol _ _ Hb _ _ Hsd) as Hok.
      split; [by apply sd_ok_time_ordered |].
      apply (get_orders_index _ _ _ _ (sd_len sd)).
      * by apply (sd_ok_len _ _ _ _ Hok).
      * intros limit. unfold OrderBook.get_orders. rewrite Heqb, Hsd. simpl.
        by destruct (limit <=? 0).
    + intros limit id_only. unfold OrderBook.get_orders. by rewrite Heqb, Hsd.
Qed.

Lemma get_orders_ordering_witness :
  let str_datetime := fun _ : Z => "" in
  let calls := sample_calls in
  let b := run calls in
  let answers (symbol : string) (all : list Z) :=
    (forall limit,
        limit <= 0 ->
        OrderBook.get_orders str_datetime b symbol limit true
        = Ok (inl <$> all))
    /\ (forall limit,
           0 < limit ->
           exists older recent,
             all = older ++ recent
             /\ Z.of_nat (length recent) = Z.min limit (Z.of_nat (length all))
             /\ OrderBook.get_orders str_datetime b symbol limit true
                = Ok (inl <$> recent)) in
  (exists all,
      time_ordered b (fun _ => True) (arrival calls) all /\ answers "" all)
  /\ (forall symbol,
         symbol ≠ "" ->
         match OrderBook.symbol_dict b !! symbol with
         | None =>
             forall limit id_only,
               OrderBook.get_orders str_datetime b symbol limit id_only = Ok []
         | Some _ =>
             exists all,
               time_ordered b (fun o => _symbol o = symbol) (arrival calls) all
               /\ answers symbol all
         end).
Proof.
  apply (get_orders_ordering (fun _ => "") sample_calls).
  apply (bool_decide_unpack _). vm_compute. exact I.
Defined.

(** C5 as stated fails on the tie-break: two orders with the same timestamp
    come out in the order of their insertion, here id 5 before id 1, which
    is not the order of the pair (timestamp, id). *)
Lemma get_orders_ties_by_arrival :
  let b := run [Insert order_E; Insert order_A] in
  OrderBook.get_orders (fun _ => "") b "" 0 true = Ok [inl 5; inl 1]
  /\ OrderBook.get_orders (fun _ => "") b "BTC/USD" 0 true = Ok [inl 5; inl 1]
  /\ timestamp_of b 5 = Some 100
  /\ timestamp_of b 1 = Some 100
  /\ timestamp_id_leb b 5 1 = false
  /\ timestamp_id_leb b 1 5 = true.
Proof.
  cbv zeta. repeat split; vm_compute; reflexivity.
Qed.

(** The example of the specification: A (100), B (50), C (200) on one
    symbol. *)
Example get_orders_example :
  let b := run [Insert order_A; Insert order_B; Insert order_C] in
  OrderBook.get_orders (fun _ => "") b "BTC/USD" 0 true
  = Ok [inl 2; inl 1; inl 3]
  /\ OrderBook.get_orders (fun _ => "") b "BTC/USD" 1 true = Ok [inl 3]
  /\ OrderBook.get_orders (fun _ => "") b "" 2 true = Ok [inl 1; inl 3]
  /\ OrderBook.get_orders (fun _ => "") b "ETH/USD" 1 true = Ok [].
Proof.
  cbv zeta. repeat split; vm_compute; reflexivity.
Qed.

(** ** The sample orders are orders the constructors build *)

Example order_10_constructed :
  Order_init 1 1000 Limit Buy "BTC" "USD" 10 1 0 = Ok order_10.
Proof. reflexivity. Qed.

Example limit_order_constructed (uuid timestamp : Z) (quote_name : string) :
  Order_init uuid timestamp Limit Buy quote_name "USD" 10 1 0
  = Ok (limit_order uuid timestamp quote_name).
Proof. reflexivity. Qed.

Example order_with_fill_reached :
  exists o1,
    execute_transaction order_10 fill_4 = Return false o1
    /\ pay_fee o1 "USD" (1 # 3) = Return tt order_with_fill.
Proof. eexists. split; reflexivity. Qed.

Example fills_generated :
  generate_transaction 2 order_10 4 1 1001 = fill_4
  /\ generate_transaction 3 order_10 6 1 1002 = fill_6
  /\ generate_transaction 4 order_10 11 1 1003 = fill_11.
Proof. repeat split. Qed.

(** * Further properties of orders *)











(** ** [filled_percentage] *)






(** ** [generate_transaction] and [Transaction.info] *)



(** X6. A transaction snapshot has exactly the keys [datetime], [timestamp],
    [price] and [amount], with price and amount rounded to 8 decimal places;
    the snapshot of an order has the same values under these four keys as
    the snapshot of the order taken as a transaction. *)
Theorem Transaction_info_shape (str_datetime : Z -> string) (tx : Transaction) :
  let info := Transaction_info str_datetime tx in
  info.*1 = Transaction_info_keys
  /\ snapshot_get "datetime" info = Some (VStr (str_datetime (_timestamp tx)))
  /\ snapshot_get "timestamp" info = Some (VInt (_timestamp tx))
  /\ (exists r, snapshot_get "price" info = Some (VNum r)
                /\ rounded_to 8 (_price tx) r)
  /\ (exists r, snapshot_get "amount" info = Some (VNum r)
                /\ rounded_to 8 (_amount tx) r)
  /\ (forall (o : Order) k,
         k ∈ Transaction_info_keys ->
         snapshot_get k (Order_info str_datetime o)
         = snapshot_get k (Transaction_info str_datetime o)).
Proof.
  cbv zeta. do 3 (split; [reflexivity |]).
  split; [eexists; split; [reflexivity | apply round_rounded_to] |].
  split; [eexists; split; [reflexivity | apply round_rounded_to] |].
  intros o k Hk. unfold Transaction_info_keys in Hk.
  repeat (apply elem_of_cons in Hk as [-> | Hk]; [reflexivity |]).
  by apply elem_of_nil in Hk.
Qed.

(** * Further properties of the pending queue *)





Lemma get_orders_loop_take (str_datetime : Z -> string) (id_only : bool)
    (limit : Z) (items : list (Z * Order)) :
  forall (count : Z) (orders : list entry),
    limit <= 0 \/ 0 <= count < limit ->
    OrderQueue.get_orders_loop str_datetime id_only items limit count orders
    = orders
      ++ (queue_entry str_datetime id_only
            <$> take (if limit <=? 0 then length items
                      else Z.to_nat (limit - count)) items).
Proof.
  induction items as [| [order_id order] items IH]; intros count orders Hl.
  - simpl. by rewrite take_nil, app_nil_r.
  - cbn [OrderQueue.get_orders_loop].
    assert (Happ : (if id_only then orders ++ [inl order_id]
                    else orders ++ [inr (Order_info str_datetime order)])
                   = orders ++ [queue_entry str_datetime id_only (order_id, order)]).
    { unfold queue_entry. by destruct id_only. }
    rewrite Happ. clear Happ.
    destruct (Z.leb_spec limit 0) as [Hle | Hgt].
    + assert (E : (count + 1 =? limit) && (0 <? limit) = false).
      { apply andb_false_iff. right. apply Z.ltb_ge. lia. }
      rewrite E, IH by lia.
      destruct (Z.leb_spec limit 0); [| lia].
      simpl. by rewrite <- app_assoc.
    + destruct Hl as [Hl | Hl]; [lia |].
      destruct (Z.eqb_spec (count + 1) limit) as [Heq | Hne].
      * assert (E : (0 <? limit) = true) by (apply Z.ltb_lt; lia).
        rewrite E. simpl.
        replace (Z.to_nat (limit - count)) with 1%nat by lia.
        destruct (Z.leb_spec limit 0); [lia |]. by destruct items.
      * simpl. rewrite IH by lia.
        destruct (Z.leb_spec limit 0); [lia |].
        replace (Z.to_nat (limit - count))
          with (S (Z.to_nat (limit - (count + 1)))) by lia.
        simpl. by rewrite <- app_assoc.
Qed.

(** X8. [OrderQueue.get_orders] lists the queue oldest first: all of it for
    [limit <= 0], otherwise its first [limit] items (all of them when there
    are fewer), as ids or as snapshots. *)
Theorem queue_get_orders_oldest (str_datetime : Z -> string)
    (q : OrderQueue.t) (limit : Z) (id_only : bool) :
  OrderQueue.get_orders str_datetime q limit id_only
  = queue_entry str_datetime id_only
      <$> (if limit <=? 0 then OrderQueue.book q
           else take (Z.to_nat limit) (OrderQueue.book q)).
Proof.
  unfold OrderQueue.get_orders.
  rewrite get_orders_loop_take.
  - simpl. rewrite Z.sub_0_r.
    destruct (limit <=? 0); [by rewrite firstn_all | done].
  - destruct (Z.leb_spec limit 0); lia.
Qed.

(** X9. Popping as often as the queue is long returns the orders in the
    order of iteration and leaves the queue empty, whatever the queue. *)
Theorem queue_drain (q : OrderQueue.t) :
  pop_n (OrderQueue.len q) q = Return (OrderQueue.iter q) OrderQueue.init.
Proof.
  destruct q as [book]. unfold OrderQueue.len, OrderQueue.iter. simpl.
  induction book as [| [k o] book IH]; [done |].
  cbn [length pop_n OrderQueue.pop_order OrderQueue.book].
  rewrite IH. by rewrite fmap_cons.
Qed.








(** * Further properties of the order book *)

(** [insert_order] in closed form, on any book. *)
Lemma insert_order_form (b : OrderBook.t) (o : Order) :
  OrderBook.insert_order b o
  = Return tt
      {| OrderBook.book := <[_id o := o]> (OrderBook.book b);
         OrderBook.time_dict :=
           sd_put (_timestamp o) (_id o) o (OrderBook.time_dict b);
         OrderBook.symbol_dict :=
           <[_symbol o :=
               sd_put (_timestamp o) (_id o) o
                 (default SortedDict_init
                    (OrderBook.symbol_dict b !! _symbol o))]>
             (OrderBook.symbol_dict b) |}.
Proof.
  destruct b as [book td sdict].
  assert (Hput : forall sd,
             sd_setitem
               (fun j => match (<[_id o := o]> book) !! j : option Order with
                         | Some order => Some (_timestamp order)
                         | None => None
                         end) (_id o) o sd
             = Return tt (sd_put (_timestamp o) (_id o) o sd)).
  { intros sd. unfold sd_setitem, sd_put.
    destruct (sd_dict sd !! _id o) eqn:E; simpl.
    - done.
    - by rewrite lookup_insert_eq. }
  unfold OrderBook.insert_order, bind, OrderBook.set_book,
    OrderBook.set_time_dict, OrderBook.key. simpl.
  rewrite Hput. unfold OrderBook.with_time_dict. simpl.
  destruct (sdict !! _symbol o) as [sd0 |] eqn:E; simpl.
  - unfold OrderBook.set_symbol_dict, OrderBook.key. simpl.
    by rewrite E, Hput.
  - unfold OrderBook.new_symbol_dict, OrderBook.set_symbol_dict,
      OrderBook.with_symbol, OrderBook.key. simpl.
    rewrite lookup_insert_eq, Hput. simpl. by rewrite insert_insert_eq.
Qed.

Lemma sd_put_put (t i : Z) (o : Order) (sd : SortedDict) :
  sd_put t i o (sd_put t i o sd) = sd_put t i o sd.
Proof.
  unfold sd_put. simpl. rewrite insert_insert_eq, lookup_insert_eq.
  rewrite (bool_decide_eq_true_2 (is_Some (Some o))) by eauto. done.
Qed.

(** X11. [insert_order] never raises, on any book.  Afterwards [get_order]
    of the order's id returns the order, every other id resolves as before,
    the id is in the global index and in the index of the order's symbol
    (created if there was none), and [len] is unchanged for an id the primary
    map had and one more otherwise. *)
Theorem insert_order_lookup (b : OrderBook.t) (o : Order) :
  exists b',
    OrderBook.insert_order b o = Return tt b'
    /\ OrderBook.get_order b' (_id o) = Ok o
    /\ (forall j, j ≠ _id o -> OrderBook.get_order b' j = OrderBook.get_order b j)
    /\ _id o ∈ dom (sd_dict (OrderBook.time_dict b'))
    /\ (exists sd, OrderBook.symbol_dict b' !! _symbol o = Some sd
                   /\ _id o ∈ dom (sd_dict sd))
    /\ OrderBook.len b'
       = (if bool_decide (_id o ∈ dom (OrderBook.book b)) then OrderBook.len b
          else OrderBook.len b + 1).
Proof.
  eexists. split; [apply insert_order_form |].
  unfold OrderBook.get_order, OrderBook.len. simpl.
  split; [by rewrite lookup_insert_eq |].
  split; [intros j Hj; by rewrite lookup_insert_ne |].
  split; [rewrite dom_insert_L; set_solver |].
  split.
  - eexists. split; [apply lookup_insert_eq |]. simpl.
    rewrite dom_insert_L. set_solver.
  - case_bool_decide as Hin.
    + apply elem_of_dom in Hin. by rewrite map_size_insert_Some.
    + apply not_elem_of_dom in Hin.
      rewrite map_size_insert_None by done. lia.
Qed.

(** X12. Inserting an order a second time changes nothing: the book after
    two [insert_order] calls with the same order is the book after one. *)
Theorem insert_order_idempotent (b : OrderBook.t) (o : Order) :
  OrderBook.insert_order (final_state (OrderBook.insert_order b o)) o
  = OrderBook.insert_order b o.
Proof.
  rewrite (insert_order_form b o). simpl.
  rewrite insert_order_form. simpl.
  rewrite insert_insert_eq, sd_put_put, lookup_insert_eq. simpl.
  by rewrite sd_put_put, insert_insert_eq.
Qed.

Lemma remove_order_keeps_symbols (b : OrderBook.t) (o : Order) :
  dom (OrderBook.symbol_dict (final_state (OrderBook.remove_order b o)))
  = dom (OrderBook.symbol_dict b).
Proof.
  unfold OrderBook.remove_order, OrderBook.remove_order_body. simpl.
  unfold OrderBook.del_time_dict.
  destruct (sd_delitem (OrderBook.key b) (_id o) (OrderBook.time_dict b))
    as [[] td | e td]; simpl; [| done].
  unfold OrderBook.del_symbol_dict. simpl.
  destruct (OrderBook.symbol_dict b !! _symbol o) as [sd0 |] eqn:E; simpl;
    [| done].
  assert (Hdom : forall sd,
             dom (<[_symbol o := sd]> (OrderBook.symbol_dict b))
             = dom (OrderBook.symbol_dict b)).
  { intros sd. rewrite dom_insert_L.
    assert (_symbol o ∈ dom (OrderBook.symbol_dict b))
      by (apply elem_of_dom; eauto).
    set_solver. }
  destruct (sd_delitem _ (_id o) sd0) as [[] sd | e sd]; simpl; [| apply Hdom].
  unfold OrderBook.del_book. simpl.
  destruct (OrderBook.book b !! _id o); simpl; apply Hdom.
Qed.

(** X13. Per-symbol indices are created and never dropped: [remove_order]
    keeps the set of symbols that have an index, on any book and whether it
    raises or not, and after any calls on a fresh book the symbols with an
    index are exactly the symbols of the orders ever inserted, also those
    whose orders have all been removed. *)
Theorem symbol_indices_never_dropped (calls : list call) :
  dom (OrderBook.symbol_dict (run calls)) = inserted_symbols calls
  /\ (forall (b : OrderBook.t) (o : Order),
         dom (OrderBook.symbol_dict (apply_call b (Remove o)))
         = dom (OrderBook.symbol_dict b))
  /\ (forall (b : OrderBook.t) (o : Order),
         dom (OrderBook.symbol_dict (apply_call b (Insert o)))
         = {[ _symbol o ]} ∪ dom (OrderBook.symbol_dict b)).
Proof.
  assert (Hins : forall (b : OrderBook.t) (o : Order),
             dom (OrderBook.symbol_dict (apply_call b (Insert o)))
             = {[ _symbol o ]} ∪ dom (OrderBook.symbol_dict b)).
  { intros b o. simpl. rewrite insert_order_form. simpl.
    by rewrite dom_insert_L. }
  split; [| split; [apply remove_order_keeps_symbols | exact Hins]].
  unfold run.
  assert (Hgen : forall b,
             dom (OrderBook.symbol_dict (fold_left apply_call calls b))
             = inserted_symbols calls ∪ dom (OrderBook.symbol_dict b)).
  { induction calls as [| c calls IH]; intros b; simpl.
    - set_solver.
    - rewrite IH. destruct c as [o | o].
      + rewrite Hins. set_solver.
      + change (apply_call b (Remove o))
          with (final_state (OrderBook.remove_order b o)).
        by rewrite remove_order_keeps_symbols. }
  rewrite Hgen. simpl. set_solver.
Qed.

(** ** A time-ordered list is determined by the book and the arrivals *)

Lemma before_ne {A} (x y : A) (l : list A) :
  NoDup l -> before x y l -> x ≠ y.
Proof.
  induction 1 as [| z l Hz Hnd IH]; simpl; [done |].
  intros [[-> Hy] | Hb]; [| by apply IH].
  intros ->. done.
Qed.

Lemma before_total {A} (x y : A) (l : list A) :
  x ∈ l -> y ∈ l -> x ≠ y -> before x y l \/ before y x l.
Proof.
  induction l as [| z l IH]; intros Hx Hy Hne.
  - by apply elem_of_nil in Hx.
  - apply elem_of_cons in Hx as [-> | Hx]; apply elem_of_cons in Hy as [-> | Hy].
    + done.
    + left. left. done.
    + right. left. done.
    + destruct (IH Hx Hy Hne); [left | right]; by right.
Qed.

Lemma before_asym {A} (x y : A) (l : list A) :
  NoDup l -> before x y l -> before y x l -> False.
Proof.
  induction 1 as [| z l Hz Hnd IH]; simpl; [done |].
  intros [[-> Hy] | Hb] [[-> Hx] | Hb'].
  - done.
  - by destruct (before_elem_of _ _ _ Hb').
  - by destruct (before_elem_of _ _ _ Hb).
  - by apply IH.
Qed.

Lemma list_eq_before {A} (l1 : list A) :
  forall l2,
    NoDup l1 -> NoDup l2 ->
    (forall x, x ∈ l1 <-> x ∈ l2) ->
    (forall x y, before x y l1 -> before x y l2) ->
    l1 = l2.
Proof.
  induction l1 as [| a l1 IH]; intros l2 Hnd1 Hnd2 Hel Hbef.
  - destruct l2 as [| b l2]; [done |].
    exfalso. eapply elem_of_nil. apply Hel. left.
  - apply NoDup_cons in Hnd1 as [Ha Hnd1].
    destruct l2 as [| b l2].
    { exfalso. eapply elem_of_nil. apply Hel. left. }
    assert (Hab : a = b).
    { assert (Ha2 : a ∈ b :: l2) by (apply Hel; left).
      apply elem_of_cons in Ha2 as [-> | Ha2]; [done |].
      assert (Hb1 : b ∈ a :: l1) by (apply Hel; left).
      apply elem_of_cons in Hb1 as [-> | Hb1]; [done |].
      exfalso. apply (before_asym a b (b :: l2) Hnd2).
      - apply Hbef. left. done.
      - left. done. }
    subst b. apply NoDup_cons in Hnd2 as [Hb Hnd2]. f_equal.
    apply IH; try done.
    + intros x. specialize (Hel x). rewrite !elem_of_cons in Hel.
      split; intros Hx.
      * destruct (proj1 Hel (or_intror Hx)) as [-> | H]; done.
      * destruct (proj2 Hel (or_intror Hx)) as [-> | H]; done.
    + intros x y Hb'. destruct (before_elem_of _ _ _ Hb') as [Hx _].
      destruct (Hbef x y) as [[-> _] | H]; [by right | done | done].
Qed.

Lemma timestamp_of_Some (b : OrderBook.t) (i : Z) (o : Order) :
  OrderBook.book b !! i = Some o -> timestamp_of b i = Some (_timestamp o).
Proof. intros H. unfold timestamp_of, OrderBook.key. by rewrite H. Qed.

Lemma time_ordered_unique (b : OrderBook.t) (P : Order -> Prop)
    (arr l1 l2 : list Z) :
  NoDup arr ->
  time_ordered b P arr l1 -> time_ordered b P arr l2 -> l1 = l2.
Proof.
  intros Harr (Hnd1 & Hel1 & Hs1 & Hst1) (Hnd2 & Hel2 & Hs2 & Hst2).
  apply list_eq_before; try done.
  - intros x. by rewrite Hel1, Hel2.
  - intros x y Hb.
    destruct (before_elem_of _ _ _ Hb) as [Hx Hy].
    pose proof (before_ne _ _ _ Hnd1 Hb) as Hne.
    apply Hel1 in Hx as (ox & Hox & _). apply Hel1 in Hy as (oy & Hoy & _).
    destruct (before_total x y l2) as [H | H]; try done.
    { apply Hel2. apply Hel1. destruct (before_elem_of _ _ _ Hb). done. }
    { apply Hel2. apply Hel1. destruct (before_elem_of _ _ _ Hb). done. }
    exfalso.
    pose proof (timestamp_of_Some b x ox Hox) as Tx.
    pose proof (timestamp_of_Some b y oy Hoy) as Ty.
    pose proof (Hs1 x y _ _ Hb Tx Ty) as Hle1.
    pose proof (Hs2 y x _ _ H Ty Tx) as Hle2.
    assert (Heq : timestamp_of b x = timestamp_of b y).
    { rewrite Tx, Ty. f_equal. lia. }
    apply (before_asym x y arr Harr).
    + by apply Hst1.
    + by apply Hst2.
Qed.

Lemma time_ordered_filter (b : OrderBook.t) (P P' : Order -> Prop)
    (Q : Z -> Prop) (Qdec : forall i, Decision (Q i)) (arr l : list Z) :
  (forall i (o : Order), OrderBook.book b !! i = Some o -> P o -> (Q i <-> P' o)) ->
  (forall o, P' o -> P o) ->
  time_ordered b P arr l ->
  time_ordered b P' arr (filter Q l).
Proof.
  intros HQ Himp (Hnd & Hel & Hs & Hst). unfold time_ordered.
  split; [by apply NoDup_filter |]. split; [| split].
  - intros i. rewrite list_elem_of_filter, Hel. split.
    + intros (Hq & o & Ho & HP). exists o. split; [done |]. by apply (HQ i o).
    + intros (o & Ho & HP'). split; [| eauto].
      apply (HQ i o); auto.
  - intros i j ti tj Hb. apply before_filter in Hb as (Hb & _). by apply Hs.
  - intros i j Hb. apply before_filter in Hb as (Hb & _). by apply Hst.
Qed.

Lemma time_ordered_iff (b : OrderBook.t) (P P' : Order -> Prop)
    (arr l : list Z) :
  (forall o, P o <-> P' o) ->
  time_ordered b P arr l -> time_ordered b P' arr l.
Proof.
  intros Hiff (Hnd & Hel & Hs & Hst). unfold time_ordered.
  split; [done |]. split; [| done].
  intros i. rewrite Hel. split; intros (o & Ho & HP); exists o;
    (split; [done | by apply Hiff]).
Qed.

(** ** Listings *)

Lemma get_orders_listing (str_datetime : Z -> string) (b : OrderBook.t)
    (symbol : string) (limit : Z) :
  limit <= 0 ->
  OrderBook.get_orders str_datetime b symbol limit true
  = Ok (inl <$> listing b symbol).
Proof.
  intros Hl. unfold OrderBook.get_orders, listing.
  destruct (Z.leb_spec limit 0); [| lia]. simpl.
  destruct (String.eqb symbol ""); [done |].
  by destruct (OrderBook.symbol_dict b !! symbol).
Qed.

Lemma listing_time_ordered (calls : list call) (b : OrderBook.t)
    (symbol : string) :
  book_ok calls b ->
  time_ordered b (listed symbol) (arrival calls) (listing b symbol).
Proof.
  intros Hb. unfold listing.
  destruct (String.eqb_spec symbol "") as [-> | Hne].
  - apply (time_ordered_iff b (fun _ => True)).
    + intros o. unfold listed. tauto.
    + apply sd_ok_time_ordered, Hb.
  - destruct (OrderBook.symbol_dict b !! symbol) as [sd |] eqn:E.
    + apply (time_ordered_iff b (fun o => _symbol o = symbol)).
      * intros o. unfold listed. tauto.
      * by apply sd_ok_time_ordered, (bk_symbol _ _ Hb).
    + unfold time_ordered. split; [constructor |]. split; [| split].
      * intros i. split; [intros H; by apply elem_of_nil in H |].
        intros (o & Ho & [-> | Hs]); [done |].
        destruct (bk_orders _ _ Hb i o Ho) as (_ & _ & [sd Hsd]). congruence.
      * intros i j ti tj [].
      * intros i j [].
Qed.

(** X14. On a book built by calls with unique ids, [get_orders] for
    everything lists each id of the primary map once, so as many ids as
    [len] counts, and the ids are those that arrived and were not removed. *)
Theorem get_orders_counts (str_datetime : Z -> string) (calls : list call) :
  unique_ids calls ->
  exists all,
    OrderBook.get_orders str_datetime (run calls) "" 0 true = Ok (inl <$> all)
    /\ all ≡ₚ arrival calls
    /\ OrderBook.len (run calls) = Z.of_nat (length all)
    /\ list_to_set all = dom (OrderBook.book (run calls)).
Proof.
  intros Hu. pose proof (run_ok calls Hu) as Hb.
  exists (listing (run calls) "").
  split; [by apply get_orders_listing |].
  destruct (listing_time_ordered calls _ "" Hb) as (Hnd & Hel & _).
  split; [| split].
  - apply NoDup_Permutation; [done | apply Hb |].
    intros i. rewrite Hel, (bk_arrival _ _ Hb). unfold listed. split.
    + intros (o & Ho & _). eauto.
    + intros [o Ho]. eauto.
  - by apply (book_ok_len calls).
  - apply set_eq. intros i.
    rewrite elem_of_list_to_set, Hel, elem_of_dom. unfold listed. split.
    + intros (o & Ho & _). eauto.
    + intros [o Ho]. eauto.
Qed.

Lemma get_orders_counts_witness :
  exists all,
    OrderBook.get_orders (fun _ => "") (run sample_calls) "" 0 true
    = Ok (inl <$> all)
    /\ all ≡ₚ arrival sample_calls
    /\ OrderBook.len (run sample_calls) = Z.of_nat (length all)
    /\ list_to_set all = dom (OrderBook.book (run sample_calls)).
Proof.
  apply (get_orders_counts (fun _ => "") sample_calls).
  apply (bool_decide_unpack _). vm_compute. exact I.
Defined.

(** X15. The listing of a symbol is the global listing cut down to the
    orders of that symbol: the two views agree not only on which ids they
    hold but on their order. *)
Theorem symbol_listing_is_filtered (str_datetime : Z -> string)
    (calls : list call) (symbol : string) :
  unique_ids calls -> symbol ≠ "" ->
  exists all,
    OrderBook.get_orders str_datetime (run calls) "" 0 true = Ok (inl <$> all)
    /\ OrderBook.get_orders str_datetime (run calls) symbol 0 true
       = Ok (inl <$> filter (fun i => symbol_of (run calls) i = Some symbol) all).
Proof.
  intros Hu Hne. pose proof (run_ok calls Hu) as Hb.
  exists (listing (run calls) "").
  split; [by apply get_orders_listing |].
  rewrite get_orders_listing by done. do 2 f_equal.
  apply (time_ordered_unique (run calls) (listed symbol) (arrival calls));
    [apply Hb | by apply listing_time_ordered |].
  apply (time_ordered_filter _ (listed "")); [| | by apply listing_time_ordered].
  - intros i o Ho _. unfold symbol_of, listed. rewrite Ho. split.
    + intros [= ->]. by right.
    + intros [-> | ->]; done.
  - intros o _. by left.
Qed.

Lemma symbol_listing_is_filtered_witness :
  exists all,
    OrderBook.get_orders (fun _ => "") (run sample_calls) "" 0 true
    = Ok (inl <$> all)
    /\ OrderBook.get_orders (fun _ => "") (run sample_calls) "BTC/USD" 0 true
       = Ok (inl <$> filter (fun i => symbol_of (run sample_calls) i
                                      = Some "BTC/USD") all).
Proof.
  apply (symbol_listing_is_filtered (fun _ => "") sample_calls "BTC/USD").
  - apply (bool_decide_unpack _). vm_compute. exact I.
  - discriminate.
Defined.

(** ** Removal, seen by lookups and listings *)

Lemma remove_order_book (calls : list call) (b : OrderBook.t) (o : Order) :
  book_ok calls b ->
  (forall o', o' ∈ call_order <$> calls -> same_object o' o) ->
  OrderBook.book (final_state (OrderBook.remove_order b o))
  = delete (_id o) (OrderBook.book b).
Proof.
  intros Hb Hsame.
  destruct (OrderBook.book b !! _id o) as [o' |] eqn:Hi.
  - destruct (bk_orders _ _ Hb _ o' Hi) as (Hid & Hin & _).
    destruct (remove_order_steps calls b o o' Hb Hi (Hsame o' Hin))
      as (td' & sd0 & sd' & _ & _ & H1 & H2 & H3 & _).
    unfold OrderBook.remove_order, OrderBook.remove_order_body. simpl.
    by rewrite H1, H2, H3.
  - rewrite (remove_order_absent calls b o Hb Hi). simpl.
    by rewrite delete_id.
Qed.

Lemma time_ordered_remove (b b' : OrderBook.t) (P : Order -> Prop)
    (arr l : list Z) (i : Z) :
  OrderBook.book b' = delete i (OrderBook.book b) ->
  time_ordered b P arr l ->
  time_ordered b' P (filter (fun j => j ≠ i) arr) (filter (fun j => j ≠ i) l).
Proof.
  intros Hbook (Hnd & Hel & Hs & Hst).
  assert (Hts : forall j, j ≠ i -> timestamp_of b' j = timestamp_of b j).
  { intros j Hj. unfold timestamp_of, OrderBook.key.
    by rewrite Hbook, lookup_delete_ne. }
  unfold time_ordered. split; [by apply NoDup_filter |]. split; [| split].
  - intros j. rewrite list_elem_of_filter, Hel, Hbook.
    destruct (decide (i = j)) as [<- | Hne].
    + rewrite lookup_delete_eq. split; [tauto |]. by intros (o & [=] & _).
    + rewrite lookup_delete_ne by done. split; [tauto |].
      intros H. split; [congruence | done].
  - intros j1 j2 t1 t2 Hb. apply before_filter in Hb as (Hb & H1 & H2).
    rewrite !Hts by done. by apply Hs.
  - intros j1 j2 Hb. apply before_filter in Hb as (Hb & H1 & H2).
    rewrite !Hts by done. intros Heq. apply before_filter. auto.
Qed.

(** X16. [remove_order] keeps the order of what stays: on a book built by
    calls with unique ids, the listing of every symbol (and the global one)
    after the call is the listing before it without the id of the order; if
    the call raises because the id is unknown, the listings are as before. *)
Theorem remove_order_listing (str_datetime : Z -> string) (calls : list call)
    (o : Order) (symbol : string) :
  unique_ids (calls ++ [Remove o]) ->
  exists all,
    OrderBook.get_orders str_datetime (run calls) symbol 0 true
    = Ok (inl <$> all)
    /\ OrderBook.get_orders str_datetime (run (calls ++ [Remove o])) symbol 0 true
       = Ok (inl <$> filter (fun j => j ≠ _id o) all).
Proof.
  intros Hu. pose proof (run_ok _ Hu) as Hb'.
  apply unique_ids_snoc in Hu as [Hu Hsame]. simpl in Hsame.
  pose proof (run_ok _ Hu) as Hb.
  exists (listing (run calls) symbol).
  rewrite !get_orders_listing by done. split; [done |]. do 2 f_equal.
  apply (time_ordered_unique (run (calls ++ [Remove o])) (listed symbol)
           (arrival (calls ++ [Remove o])));
    [apply Hb' | by apply listing_time_ordered |].
  rewrite arrival_snoc. simpl.
  apply (time_ordered_remove (run calls)); [| by apply listing_time_ordered].
  rewrite run_snoc. simpl. by apply (remove_order_book calls).
Qed.

Lemma remove_order_listing_witness :
  exists all,
    OrderBook.get_orders (fun _ => "") (run sample_calls) "BTC/USD" 0 true
    = Ok (inl <$> all)
    /\ OrderBook.get_orders (fun _ => "")
         (run (sample_calls ++ [Remove order_A])) "BTC/USD" 0 true
       = Ok (inl <$> filter (fun j => j ≠ _id order_A) all).
Proof.
  apply (remove_order_listing (fun _ => "") sample_calls order_A "BTC/USD").
  apply (bool_decide_unpack _). vm_compute. exact I.
Defined.

(** X17. After [remove_order] of an order the book holds, [get_order] of
    its id raises [KeyError], every other id resolves as before, [len] is
    one less, and a second [remove_order] of the same order raises
    [KeyError] and changes nothing. *)
Theorem remove_order_lookup (calls : list call) (o : Order) :
  unique_ids (calls ++ [Remove o]) ->
  _id o ∈ dom (OrderBook.book (run calls)) ->
  let b := run calls in
  let b' := run (calls ++ [Remove o]) in
  OrderBook.remove_order b o = Return tt b'
  /\ OrderBook.get_order b' (_id o) = Err KeyError
  /\ (forall j, j ≠ _id o -> OrderBook.get_order b' j = OrderBook.get_order b j)
  /\ OrderBook.len b' = OrderBook.len b - 1
  /\ OrderBook.remove_order b' o = Raise KeyError b'.
Proof.
  intros Hu Hi. cbv zeta. pose proof (run_ok _ Hu) as Hb'.
  apply unique_ids_snoc in Hu as [Hu Hsame]. simpl in Hsame.
  pose proof (run_ok _ Hu) as Hb.
  pose proof (remove_order_book calls _ o Hb Hsame) as Hbook.
  rewrite run_snoc in *. simpl in *.
  apply elem_of_dom in Hi as [o' Ho'].
  destruct (bk_orders _ _ Hb _ o' Ho') as (Hid & Hin & _).
  destruct (remove_order_steps calls _ o o' Hb Ho' (Hsame o' Hin))
    as (td' & sd0 & sd' & _ & _ & H1 & H2 & H3 & _).
  assert (Hret : exists b3, OrderBook.remove_order (run calls) o = Return tt b3).
  { unfold OrderBook.remove_order, OrderBook.remove_order_body. simpl.
    rewrite H1, H2, H3. eauto. }
  destruct Hret as [b3 Hret]. rewrite Hret in *. simpl in *.
  split; [done |].
  unfold OrderBook.get_order, OrderBook.len. rewrite Hbook.
  split; [by rewrite lookup_delete_eq |].
  split; [intros j Hj; by rewrite lookup_delete_ne |].
  split.
  - rewrite map_size_delete_Some by eauto.
    assert (size (OrderBook.book (run calls)) ≠ 0%nat).
    { intros Hz. apply map_size_empty_iff in Hz. rewrite Hz in Ho'.
      by rewrite lookup_empty in Ho'. }
    lia.
  - apply (remove_order_absent (calls ++ [Remove o])); [done |].
    rewrite Hbook. apply lookup_delete_eq.
Qed.

Lemma remove_order_lookup_witness :
  let b := run sample_calls in
  let b' := run (sample_calls ++ [Remove order_A]) in
  OrderBook.remove_order b order_A = Return tt b'
  /\ OrderBook.get_order b' (_id order_A) = Err KeyError
  /\ (forall j, j ≠ _id order_A ->
                OrderBook.get_order b' j = OrderBook.get_order b j)
  /\ OrderBook.len b' = OrderBook.len b - 1
  /\ OrderBook.remove_order b' order_A = Raise KeyError b'.
Proof.
  apply (remove_order_lookup sample_calls order_A).
  - apply (bool_decide_unpack _). vm_compute. exact I.
  - apply (bool_decide_unpack _). vm_compute. exact I.
Defined.

(** ** Insertion of a new order, seen by listings *)

Lemma sd_put_fresh (book : gmap Z Order) (P : Order -> Prop) (arr : list Z)
    (sd : SortedDict) (i : Z) (o : Order) :
  sd_ok book P arr sd -> book !! i = None ->
  sd_put (_timestamp o) i o sd
  = {| sd_dict := <[i := o]> (sd_dict sd);
       sd_list := list_add (_timestamp o) i (sd_list sd) |}.
Proof.
  intros Hok Hi. unfold sd_put.
  assert (Hd : sd_dict sd !! i = None).
  { eapply sd_ok_dict_None; [exact Hok |]. intros o'. congruence. }
  rewrite bool_decide_eq_false_2; [done |]. rewrite Hd. by intros [? ?].
Qed.

Lemma sd_put_fresh_keys (book : gmap Z Order) (P : Order -> Prop)
    (arr : list Z) (sd : SortedDict) (i : Z) (o : Order) :
  sd_ok book P arr sd -> book !! i = None ->
  exists older newer,
    sd_keys sd = older ++ newer
    /\ sd_keys (sd_put (_timestamp o) i o sd) = older ++ i :: newer
    /\ (forall j, j ∈ older ->
                  exists o' : Order,
                    book !! j = Some o' /\ _timestamp o' <= _timestamp o)
    /\ (forall j, j ∈ newer ->
                  exists o' : Order,
                    book !! j = Some o' /\ _timestamp o < _timestamp o').
Proof.
  intros Hok Hi. rewrite (sd_put_fresh _ _ _ _ _ _ Hok Hi).
  destruct (list_add_split (_timestamp o) i (sd_list sd) (ok_sorted _ _ _ _ Hok))
    as (l1 & l2 & Hl & Hadd & H1 & H2).
  exists l1.*2, l2.*2. unfold sd_keys. simpl. rewrite Hadd, Hl.
  rewrite !fmap_app, fmap_cons. simpl.
  split; [done |]. split; [done |].
  rewrite Forall_forall in H1, H2. split.
  - intros j Hj. apply list_elem_of_fmap in Hj as ([t j'] & -> & He).
    destruct (ok_cached _ _ _ _ Hok t j') as (o' & Ho' & Ht).
    { rewrite Hl. apply elem_of_app. by left. }
    exists o'. split; [done |]. specialize (H1 _ He). simpl in *. lia.
  - intros j Hj. apply list_elem_of_fmap in Hj as ([t j'] & -> & He).
    destruct (ok_cached _ _ _ _ Hok t j') as (o' & Ho' & Ht).
    { rewrite Hl. apply elem_of_app. by right. }
    exists o'. split; [done |]. specialize (H2 _ He). simpl in *. lia.
Qed.

Lemma default_index_ok (calls : list call) (b : OrderBook.t) (symbol : string) :
  book_ok calls b ->
  sd_ok (OrderBook.book b) (fun o => _symbol o = symbol) (arrival calls)
        (default SortedDict_init (OrderBook.symbol_dict b !! symbol)).
Proof.
  intros Hb. destruct (OrderBook.symbol_dict b !! symbol) as [sd |] eqn:E; simpl.
  - by apply (bk_symbol _ _ Hb).
  - apply sd_ok_empty. intros j o' Ho' Hs.
    destruct (bk_orders _ _ Hb j o' Ho') as (_ & _ & [x Hx]). congruence.
Qed.

(** X18. [insert_order] of an order whose id the book does not hold puts
    the id into the global listing and into the listing of its symbol, and
    moves nothing else: the ids before it are those that were listed with a
    timestamp up to the order's, the ids after it those with a larger one,
    both in the order they had.  The listings of the other symbols are as
    before. *)
Theorem insert_order_listing (str_datetime : Z -> string) (calls : list call)
    (o : Order) :
  unique_ids calls ->
  _id o ∉ dom (OrderBook.book (run calls)) ->
  let b := run calls in
  let b' := run (calls ++ [Insert o]) in
  (forall symbol,
      symbol = "" \/ symbol = _symbol o ->
      exists older newer,
        OrderBook.get_orders str_datetime b symbol 0 true
        = Ok (inl <$> older ++ newer)
        /\ OrderBook.get_orders str_datetime b' symbol 0 true
           = Ok (inl <$> older ++ _id o :: newer)
        /\ (forall j, j ∈ older ->
                      exists t, timestamp_of b j = Some t /\ t <= _timestamp o)
        /\ (forall j, j ∈ newer ->
                      exists t, timestamp_of b j = Some t /\ _timestamp o < t))
  /\ (forall symbol limit,
         symbol ≠ "" -> symbol ≠ _symbol o ->
         OrderBook.get_orders str_datetime b' symbol limit true
         = OrderBook.get_orders str_datetime b symbol limit true).
Proof.
  intros Hu Hi. cbv zeta. pose proof (run_ok _ Hu) as Hb.
  apply not_elem_of_dom in Hi.
  rewrite run_snoc. simpl. rewrite insert_order_form. simpl.
  set (b := run calls) in *.
  assert (Hview : forall P sd,
             sd_ok (OrderBook.book b) P (arrival calls) sd ->
             exists older newer,
               sd_keys sd = older ++ newer
               /\ sd_keys (sd_put (_timestamp o) (_id o) o sd)
                  = older ++ _id o :: newer
               /\ (forall j, j ∈ older ->
                     exists t, timestamp_of b j = Some t /\ t <= _timestamp o)
               /\ (forall j, j ∈ newer ->
                     exists t, timestamp_of b j = Some t /\ _timestamp o < t)).
  { intros P sd Hok.
    destruct (sd_put_fresh_keys _ _ _ _ (_id o) o Hok Hi)
      as (older & newer & H1 & H2 & H3 & H4).
    exists older, newer. split; [done |]. split; [done |]. split.
    - intros j Hj. destruct (H3 j Hj) as (o' & Ho' & Ht).
      exists (_timestamp o'). split; [by apply timestamp_of_Some | done].
    - intros j Hj. destruct (H4 j Hj) as (o' & Ho' & Ht).
      exists (_timestamp o'). split; [by apply timestamp_of_Some | done]. }
  split.
  - intros symbol Hsym. rewrite !get_orders_listing by done. unfold listing.
    simpl. destruct (String.eqb_spec symbol "") as [-> | Hne].
    + destruct (Hview _ _ (bk_time _ _ Hb)) as (older & newer & H1 & H2 & H3 & H4).
      exists older, newer. by rewrite H1, H2.
    + destruct Hsym as [-> | ->]; [done |].
      rewrite lookup_insert_eq.
      destruct (Hview _ _ (default_index_ok calls b (_symbol o) Hb))
        as (older & newer & H1 & H2 & H3 & H4).
      exists older, newer. rewrite H2. split; [| done].
      destruct (OrderBook.symbol_dict b !! _symbol o); simpl in H1;
        by rewrite <- H1.
  - intros symbol limit Hne Hne'. unfold OrderBook.get_orders. simpl.
    apply String.eqb_neq in Hne. rewrite Hne.
    by rewrite lookup_insert_ne.
Qed.

Lemma insert_order_listing_witness :
  let str_datetime := fun _ : Z => "" in
  let o := order_B in
  let b := run sample_calls in
  let b' := run (sample_calls ++ [Insert o]) in
  (forall symbol,
      symbol = "" \/ symbol = _symbol o ->
      exists older newer,
        OrderBook.get_orders str_datetime b symbol 0 true
        = Ok (inl <$> older ++ newer)
        /\ OrderBook.get_orders str_datetime b' symbol 0 true
           = Ok (inl <$> older ++ _id o :: newer)
        /\ (forall j, j ∈ older ->
                      exists t, timestamp_of b j = Some t /\ t <= _timestamp o)
        /\ (forall j, j ∈ newer ->
                      exists t, timestamp_of b j = Some t /\ _timestamp o < t))
  /\ (forall symbol limit,
         symbol ≠ "" -> symbol ≠ _symbol o ->
         OrderBook.get_orders str_datetime b' symbol limit true
         = OrderBook.get_orders str_datetime b symbol limit true).
Proof.
  apply (insert_order_listing (fun _ => "") sample_calls order_B).
  - apply (bool_decide_unpack _). vm_compute. exact I.
  - apply (bool_decide_unpack _). vm_compute. exact I.
Defined.

(** ** Insertion undone by removal *)

Lemma list_remove_add (t i : Z) (l : list (Z * Z)) :
  StronglySorted key_le l -> i ∉ l.*2 ->
  list_remove t i (list_add t i l) = Some l.
Proof.
  intros Hs Hi.
  destruct (list_add_split t i l Hs) as (l1 & l2 & -> & -> & H1 & H2).
  rewrite fmap_app in Hi.
  apply list_remove_split.
  - apply StronglySorted_app in Hs as (Hcross & Hs1 & Hs2).
    rewrite Forall_forall in H1.
    apply StronglySorted_app. split; [| split; [done |]].
    + intros x1 x2 Hx1 Hx2. apply elem_of_cons in Hx2 as [-> | Hx2].
      * apply (H1 x1 Hx1).
      * by apply Hcross.
    + constructor; [done |].
      eapply Forall_impl; [exact H2 |]. unfold key_le. simpl. lia.
  - intros H. apply Hi, elem_of_app. by left.
Qed.

Lemma sd_put_delitem (book : gmap Z Order) (P : Order -> Prop) (arr : list Z)
    (sd : SortedDict) (key : Z -> option Z) (i : Z) (o : Order) :
  sd_ok book P arr sd -> book !! i = None ->
  key i = Some (_timestamp o) ->
  sd_delitem key i (sd_put (_timestamp o) i o sd) = Return tt sd.
Proof.
  intros Hok Hi Hkey. rewrite (sd_put_fresh _ _ _ _ _ _ Hok Hi).
  assert (Hd : sd_dict sd !! i = None).
  { eapply sd_ok_dict_None; [exact Hok |]. intros o'. congruence. }
  assert (Hnot : i ∉ (sd_list sd).*2).
  { intros Hin. apply (ok_keys _ _ _ _ Hok) in Hin as [x Hx]. congruence. }
  unfold sd_delitem. simpl. rewrite lookup_insert_eq, Hkey.
  rewrite (list_remove_add _ _ _ (ok_sorted _ _ _ _ Hok) Hnot).
  rewrite delete_insert_id by done. by destruct sd.
Qed.

(** X19. Inserting an order whose id the book does not hold and removing it
    again gives back the primary map and the global index exactly, and the
    index of the order's symbol as it was; the only trace is an empty index
    for a symbol that had none.  If the symbol had an index, the book is the
    one before the two calls. *)
Theorem insert_then_remove (calls : list call) (o : Order) :
  unique_ids calls ->
  _id o ∉ dom (OrderBook.book (run calls)) ->
  let b := run calls in
  exists b2,
    OrderBook.remove_order (final_state (OrderBook.insert_order b o)) o
    = Return tt b2
    /\ OrderBook.book b2 = OrderBook.book b
    /\ OrderBook.time_dict b2 = OrderBook.time_dict b
    /\ OrderBook.symbol_dict b2
       = <[_symbol o := default SortedDict_init
                          (OrderBook.symbol_dict b !! _symbol o)]>
           (OrderBook.symbol_dict b)
    /\ (_symbol o ∈ dom (OrderBook.symbol_dict b) -> b2 = b).
Proof.
  intros Hu Hi. cbv zeta. pose proof (run_ok _ Hu) as Hb.
  apply not_elem_of_dom in Hi. set (b := run calls) in *.
  rewrite insert_order_form. simpl.
  unfold OrderBook.remove_order, OrderBook.remove_order_body. simpl.
  unfold OrderBook.del_time_dict. simpl.
  rewrite (sd_put_delitem _ _ _ _ _ _ o (bk_time _ _ Hb) Hi)
    by (unfold OrderBook.key; simpl; by rewrite lookup_insert_eq).
  unfold OrderBook.with_time_dict. simpl.
  unfold OrderBook.del_symbol_dict. simpl. rewrite lookup_insert_eq.
  rewrite (sd_put_delitem _ _ _ _ _ _ o
             (default_index_ok calls b (_symbol o) Hb) Hi)
    by (unfold OrderBook.key; simpl; by rewrite lookup_insert_eq).
  unfold OrderBook.with_symbol, OrderBook.del_book. simpl.
  rewrite lookup_insert_eq, insert_insert_eq, delete_insert_id by done.
  eexists. split; [reflexivity |]. simpl.
  split; [done |]. split; [done |]. split; [done |].
  intros Hs. apply elem_of_dom in Hs as [sd Hsd]. rewrite Hsd. simpl.
  rewrite insert_id by done. by destruct b.
Qed.

Lemma insert_then_remove_witness :
  let b := run sample_calls in
  let o := order_B in
  exists b2,
    OrderBook.remove_order (final_state (OrderBook.insert_order b o)) o
    = Return tt b2
    /\ OrderBook.book b2 = OrderBook.book b
    /\ OrderBook.time_dict b2 = OrderBook.time_dict b
    /\ OrderBook.symbol_dict b2
       = <[_symbol o := default SortedDict_init
                          (OrderBook.symbol_dict b !! _symbol o)]>
           (OrderBook.symbol_dict b)
    /\ (_symbol o ∈ dom (OrderBook.symbol_dict b) -> b2 = b).
Proof.
  apply (insert_then_remove sample_calls order_B).
  - apply (bool_decide_unpack _). vm_compute. exact I.
  - apply (bool_decide_unpack _). vm_compute. exact I.
Defined.

(** ** Snapshots from the book, and the latest order *)

Lemma infos_ok (str_datetime : Z -> string) (b : OrderBook.t) (l : list Z) :
  (forall i, i ∈ l -> is_Some (OrderBook.book b !! i)) ->
  exists os : list Order,
    Forall2 (fun i o => OrderBook.book b !! i = Some o) l os
    /\ OrderBook.infos str_datetime b l
       = Ok ((fun o : Order => inr (Order_info str_datetime o)) <$> os).
Proof.
  induction l as [| i l IH]; intros Hin.
  - exists []. split; [constructor | done].
  - destruct (Hin i) as [o Ho]; [left |].
    destruct IH as (os & Hos & Hinfos).
    { intros j Hj. apply Hin. by right. }
    exists (o :: os). split; [by constructor |].
    simpl. by rewrite Ho, Hinfos.
Qed.

Lemma slice_from_subseteq {A} (start : Z) (l : list A) :
  slice_from start l ⊆ l.
Proof. unfold slice_from. apply subseteq_drop. Qed.

(** X20. On a book built by calls with unique ids, [get_orders] with
    [id_only] false never fails on a missing id: it returns the snapshots of
    exactly the orders whose ids it returns with [id_only] true, in the same
    order, each snapshot taken from the order the primary map holds under
    that id. *)
Theorem get_orders_snapshots (str_datetime : Z -> string) (calls : list call)
    (symbol : string) (limit : Z) :
  unique_ids calls ->
  let b := run calls in
  exists (ids : list Z) (os : list Order),
    OrderBook.get_orders str_datetime b symbol limit true = Ok (inl <$> ids)
    /\ Forall2 (fun i (o : Order) =>
                  OrderBook.book b !! i = Some o /\ _id o = i) ids os
    /\ OrderBook.get_orders str_datetime b symbol limit false
       = Ok ((fun o : Order => inr (Order_info str_datetime o)) <$> os).
Proof.
  intros Hu. cbv zeta. pose proof (run_ok _ Hu) as Hb.
  set (b := run calls) in *.
  assert (Hpick : forall P sd (l : list Z),
             sd_ok (OrderBook.book b) P (arrival calls) sd ->
             l ⊆ sd_keys sd ->
             exists (ids : list Z) (os : list Order),
               (Ok (inl <$> l) : result (list entry)) = Ok (inl <$> ids)
               /\ Forall2 (fun i (o : Order) =>
                             OrderBook.book b !! i = Some o /\ _id o = i) ids os
               /\ OrderBook.infos str_datetime b l
                  = Ok ((fun o : Order => inr (Order_info str_datetime o))
                          <$> os)).
  { intros P sd l Hok Hsub.
    destruct (infos_ok str_datetime b l) as (os & Hos & Hinfos).
    { intros i Hi. apply Hsub in Hi.
      apply (ok_keys _ _ _ _ Hok), (ok_dict _ _ _ _ Hok) in Hi
        as (o & Ho & _).
      eauto. }
    exists l, os. split; [done |]. split; [| done].
    eapply Forall2_impl; [exact Hos |]. intros i o Ho. split; [done |].
    by destruct (bk_orders _ _ Hb i o Ho). }
  unfold OrderBook.get_orders. simpl.
  destruct (String.eqb symbol "").
  - destruct (limit <=? 0).
    + by apply (Hpick _ _ _ (bk_time _ _ Hb)).
    + apply (Hpick _ _ _ (bk_time _ _ Hb)), slice_from_subseteq.
  - destruct (OrderBook.symbol_dict b !! symbol) as [sd |] eqn:E.
    + destruct (limit <=? 0).
      * by apply (Hpick _ _ _ (bk_symbol _ _ Hb _ _ E)).
      * apply (Hpick _ _ _ (bk_symbol _ _ Hb _ _ E)), slice_from_subseteq.
    + exists [], []. split; [done |]. split; [constructor | done].
Qed.

Lemma get_orders_snapshots_witness :
  let str_datetime := fun _ : Z => "" in
  let b := run sample_calls in
  exists (ids : list Z) (os : list Order),
    OrderBook.get_orders str_datetime b "BTC/USD" 2 true = Ok (inl <$> ids)
    /\ Forall2 (fun i (o : Order) =>
                  OrderBook.book b !! i = Some o /\ _id o = i) ids os
    /\ OrderBook.get_orders str_datetime b "BTC/USD" 2 false
       = Ok ((fun o : Order => inr (Order_info str_datetime o)) <$> os).
Proof.
  apply (get_orders_snapshots (fun _ => "") sample_calls "BTC/USD" 2).
  apply (bool_decide_unpack _). vm_compute. exact I.
Defined.

(** X21. On a non-empty book built by calls with unique ids,
    [get_orders(limit=1)] returns one id, and no order of the book has a
    larger timestamp than the order under that id. *)
Theorem get_orders_latest (str_datetime : Z -> string) (calls : list call) :
  unique_ids calls ->
  OrderBook.len (run calls) ≠ 0 ->
  let b := run calls in
  exists i ti,
    OrderBook.get_orders str_datetime b "" 1 true = Ok [inl i]
    /\ timestamp_of b i = Some ti
    /\ (forall j tj, timestamp_of b j = Some tj -> tj <= ti).
Proof.
  intros Hu Hlen. cbv zeta. pose proof (run_ok _ Hu) as Hb.
  set (b := run calls) in *.
  pose proof (book_ok_len calls b Hb) as Hl.
  destruct (listing_time_ordered calls b "" Hb) as (Hnd & Hel & Hs & _).
  unfold listing in *. simpl in *.
  remember (sd_keys (OrderBook.time_dict b)) as l eqn:El.
  assert (Hne : l ≠ []).
  { intros ->. simpl in Hl. lia. }
  destruct (exists_last Hne) as (l0 & x & ->). clear Hne.
  assert (Hx : x ∈ l0 ++ [x]) by (apply elem_of_app; right; left).
  apply Hel in Hx as (ox & Hox & _).
  exists x, (_timestamp ox).
  split; [| split; [by apply timestamp_of_Some |]].
  - unfold OrderBook.get_orders. simpl. rewrite <- El, Hl.
    unfold slice_from. rewrite length_app. simpl.
    replace (Z.min 1 (Z.of_nat (length l0 + 1))) with 1 by lia.
    simpl.
    replace (Z.to_nat (Z.max (- (1) + Z.of_nat (length l0 + 1)) 0))
      with (length l0) by lia.
    by rewrite drop_app_length.
  - intros j tj Hj. unfold timestamp_of, OrderBook.key in Hj.
    destruct (OrderBook.book b !! j) as [oj |] eqn:Hoj; [| done].
    injection Hj as <-.
    assert (Hjl : j ∈ l0 ++ [x]) by (apply Hel; exists oj; split; [done | by left]).
    apply elem_of_app in Hjl as [Hjl | Hjl].
    + apply (Hs j x).
      * apply before_app. right. right. split; [done | left].
      * by apply timestamp_of_Some.
      * by apply timestamp_of_Some.
    + apply list_elem_of_singleton in Hjl. subst j.
      assert (oj = ox) as -> by congruence. lia.
Qed.

Lemma get_orders_latest_witness :
  let b := run sample_calls in
  exists i ti,
    OrderBook.get_orders (fun _ => "") b "" 1 true = Ok [inl i]
    /\ timestamp_of b i = Some ti
    /\ (forall j tj, timestamp_of b j = Some tj -> tj <= ti).
Proof.
  apply (get_orders_latest (fun _ => "") sample_calls).
  - apply (bool_decide_unpack _). vm_compute. exact I.
  - vm_compute. discriminate.
Defined.
